(** * whatsapp-automator-backend: session state machine and bulk dispatch

    A shallow embedding of the two server programs of the repository,
    [src/server.js] and the second, unnamed source file
    [src/unnamed/part_000], and the properties of the specification
    checked against them.

    Both programs are single-threaded Node.js servers.  Every HTTP handler
    and every event callback runs to completion up to its next [await];
    such a run is one atomic step of the model.  The three module-level
    variables [client], [sessionStatus] and [qrCodeData] form the shared
    store; handlers are written in a small monad that threads the store,
    collects the observable effects in program order and propagates thrown
    exceptions. *)

From Stdlib Require Import QArith Lqa Qround.
From Stdlib Require Import List String Ascii Bool Arith ZArith Lia.
From Stdlib Require Import PrimFloat FloatOps SpecFloat.
Import ListNotations.
Close Scope Q_scope.
Open Scope string_scope.
Open Scope list_scope.

Set Implicit Arguments.

(** ** Values *)

(** [sessionStatus] holds one of four string constants. *)
Inductive Status : Set := DISCONNECTED | CONNECTING | CONNECTED | ERROR.

Definition Status_eqb (a b : Status) : bool :=
  match a, b with
  | DISCONNECTED, DISCONNECTED | CONNECTING, CONNECTING
  | CONNECTED, CONNECTED | ERROR, ERROR => true
  | _, _ => false
  end.

(** The identity of a [Client] object: the n-th object built by
    [new Client(...)] is number n. *)
Definition ClientId := nat.

(** A parsed JSON document ([express.json()] hands these to the handlers).
    The payload of a number is never inspected by the programs. *)
Unset Elimination Schemes.
Inductive Json : Type :=
| JNull
| JBool (b : bool)
| JNum (n : Q)
| JStr (s : string)
| JArr (elems : list Json)
| JObj (fields : list (string * Json)).
Set Elimination Schemes.

(** A JavaScript value read from a JSON document: [None] is [undefined]. *)
Definition Value := option Json.

(** Thrown values.  Exceptions raised by the runtime are [TypeError]s; the
    collaborators (whatsapp-web.js, qrcode) are taken to reject with
    [Error] objects, so that [err.message] is defined in every catch
    block. *)
Record JsError : Set := mkError { error_name : string; message : string }.

Definition TypeError (msg : string) : JsError := mkError "TypeError" msg.

(** The object built by [new MessageMedia(mimetype, data, filename)]. *)
Record MessageMedia : Type :=
  mkMedia { mimetype : string; data : Value; filename : string }.

(** ** Observable effects *)

Inductive Level : Set := log | error.

Inductive LogArg : Type :=
| Txt (s : string)
| Val (v : Value)
| Num (n : nat).

Inductive Assignment : Type :=
| Set_sessionStatus (st : Status)
| Set_qrCodeData (url : option string)
| Set_client (c : option ClientId).

Inductive ResBody : Type :=
| Body_status (text : string)                      (* { status: text } *)
| Body_poll (st : Status) (qrCode : option string) (* { status, qrCode } *)
| Body_result (success : bool) (text : string).    (* { success, message } *)

Inductive Effect : Type :=
| Console (lvl : Level) (args : list LogArg)
| Assign (a : Assignment)
| NewClient (c : ClientId)
| Listen (c : ClientId) (event : string)
| Initialize (c : ClientId)
| Destroy (c : ClientId)
| Logout (c : ClientId)
| ToDataURL (raw : string)
| SendMessage (c : ClientId) (chatId : string) (media : MessageMedia)
              (caption : Value)
| SetTimeout (ms : Q)
| Respond (code : nat) (body : ResBody)
| Uncaught (e : JsError).

(** ** The handler monad *)

Inductive Completion (A : Type) : Type :=
| Normal (a : A)
| Throw (e : JsError).
Arguments Normal {A} a.
Arguments Throw {A} e.

Section Monad.
Context {S : Type}.

Definition M (A : Type) : Type := S -> Completion A * S * list Effect.

Definition ret {A} (a : A) : M A := fun s => (Normal a, s, []).

Definition bind {A B} (m : M A) (k : A -> M B) : M B := fun s =>
  match m s with
  | (Normal a, s1, w1) =>
      match k a s1 with (r, s2, w2) => (r, s2, w1 ++ w2) end
  | (Throw e, s1, w1) => (Throw e, s1, w1)
  end.

Definition throw {A} (e : JsError) : M A := fun s => (Throw e, s, []).

Definition get : M S := fun s => (Normal s, s, []).

Definition put (s : S) : M unit := fun _ => (Normal tt, s, []).

Definition emit (e : Effect) : M unit := fun s => (Normal tt, s, [e]).

(** [try { m } catch (err) { h err }] *)
Definition try_catch {A} (m : M A) (h : JsError -> M A) : M A := fun s =>
  match m s with
  | (Normal a, s1, w1) => (Normal a, s1, w1)
  | (Throw e, s1, w1) =>
      match h e s1 with (r, s2, w2) => (r, s2, w1 ++ w2) end
  end.

(** [try { m } finally { f }]: [f] always runs; a throw of [f] replaces
    the completion of [m]. *)
Definition try_finally {A} (m : M A) (f : M unit) : M A := fun s =>
  match m s with
  | (r, s1, w1) =>
      match f s1 with
      | (Normal _, s2, w2) => (r, s2, w1 ++ w2)
      | (Throw e, s2, w2) => (Throw e, s2, w1 ++ w2)
      end
  end.

Definition console (lvl : Level) (args : list LogArg) : M unit :=
  emit (Console lvl args).

Definition respond (code : nat) (body : ResBody) : M unit :=
  emit (Respond code body).
End Monad.
Arguments M : clear implicits.

Declare Scope js_scope.
Delimit Scope js_scope with js.
Notation "x <- m ;; k" := (bind m (fun x => k))
  (at level 61, m at next level, right associativity) : js_scope.
Notation "m ;; k" := (bind m (fun _ => k))
  (at level 61, right associativity) : js_scope.
Open Scope js_scope.

(** ** The shared store *)

(** [client] is [undefined] at start and [null] after a reset; both are
    falsy and both throw on a member access, so one [None] stands for the
    two.  [allocated] counts the [Client] objects built so far and gives
    the next object its identity; the programs cannot read it. *)
Record State : Type := mkState {
  client : option ClientId;
  sessionStatus : Status;
  qrCodeData : option string;
  allocated : nat
}.

Definition initial : State :=
  {| client := None; sessionStatus := DISCONNECTED; qrCodeData := None;
     allocated := 0 |}.

Definition truthy {A} (o : option A) : bool :=
  match o with Some _ => true | None => false end.

Definition set_sessionStatus (st : Status) : M State unit :=
  s <- get ;;
  put {| client := client s; sessionStatus := st;
         qrCodeData := qrCodeData s; allocated := allocated s |} ;;
  emit (Assign (Set_sessionStatus st)).

Definition set_qrCodeData (url : option string) : M State unit :=
  s <- get ;;
  put {| client := client s; sessionStatus := sessionStatus s;
         qrCodeData := url; allocated := allocated s |} ;;
  emit (Assign (Set_qrCodeData url)).

Definition set_client (c : option ClientId) : M State unit :=
  s <- get ;;
  put {| client := c; sessionStatus := sessionStatus s;
         qrCodeData := qrCodeData s; allocated := allocated s |} ;;
  emit (Assign (Set_client c)).

(** [new Client({...})]: a fresh object. *)
Definition new_Client : M State ClientId :=
  s <- get ;;
  put {| client := client s; sessionStatus := sessionStatus s;
         qrCodeData := qrCodeData s; allocated := S (allocated s) |} ;;
  emit (NewClient (allocated s)) ;;
  ret (allocated s).

(** Reading a member of the global [client]: a [TypeError] when it is
    [undefined] or [null]. *)
Definition the_client (member : string) : M State ClientId :=
  s <- get ;;
  match client s with
  | Some c => ret c
  | None =>
      throw (TypeError ("Cannot read properties of null (reading '"
                          ++ member ++ "')")%string)
  end.

Definition client_on (event : string) : M State unit :=
  c <- the_client "on" ;; emit (Listen c event).

Definition client_initialize : M State unit :=
  c <- the_client "initialize" ;; emit (Initialize c).

Definition client_destroy : M State unit :=
  c <- the_client "destroy" ;; emit (Destroy c).

Definition client_logout : M State unit :=
  c <- the_client "logout" ;; emit (Logout c).

(** [await p]: the handler is suspended until the promise settles.  While
    it is suspended other handlers run; [meanwhile] is their combined
    action on the store.  [settled = None] is fulfilment, [Some e] is
    rejection with [e]. *)
Definition await (settled : option JsError) (meanwhile : State -> State)
  : M State unit :=
  fun s => match settled with
           | None => (Normal tt, meanwhile s, [])
           | Some e => (Throw e, meanwhile s, [])
           end.

(** ** Bulk dispatch: the drain loop

    The background loop of [POST /api/whatsapp/send-bulk] is the same in
    both programs ([src/server.js] lines 113-133, [src/unnamed/part_000]
    lines 111-124; the first names the intermediate [sanitizedPhone], the
    second inlines it). *)

(** What the world does while one element is processed: the value of the
    global [client] when [client.sendMessage] is evaluated, whether the
    [MessageMedia] constructor throws, how the [sendMessage] promise
    settles, and the number returned by [Math.random()]. *)
Record ItemEnv : Type := mkEnv {
  env_client : option ClientId;
  env_media : option JsError;
  env_send : option JsError;
  env_random : Q
}.

Fixpoint assoc (k : string) (fields : list (string * Json)) : Value :=
  match fields with
  | [] => None
  | (k', v) :: rest => if String.eqb k k' then Some v else assoc k rest
  end.

(** [v.k] for the keys the programs read ([messages], [phone], [message],
    [imageBase64]): no prototype defines them, so only an object's own
    fields can answer, and [null] throws. *)
Definition member {S} (v : Json) (k : string) : M S Value :=
  match v with
  | JNull =>
      throw (TypeError ("Cannot read properties of null (reading '"
                          ++ k ++ "')")%string)
  | JObj fields => ret (assoc k fields)
  | _ => ret None
  end.

Definition is_digit (a : ascii) : bool :=
  ((48 <=? nat_of_ascii a)%nat && (nat_of_ascii a <=? 57)%nat)%bool.

(** [s.replace(/\D/g, '')].  Every byte of a non-ASCII character is a
    non-digit, so filtering bytes and filtering UTF-16 units agree. *)
Fixpoint strip_non_digits (s : string) : string :=
  match s with
  | EmptyString => EmptyString
  | String a rest =>
      if is_digit a then String a (strip_non_digits rest)
      else strip_non_digits rest
  end.

(** [phone.replace(/\D/g, '')] on an arbitrary value: only a string has a
    callable [replace]. *)
Definition phone_replace {S} (phone : Value) : M S string :=
  match phone with
  | Some (JStr s) => ret (strip_non_digits s)
  | None =>
      throw (TypeError
               "Cannot read properties of undefined (reading 'replace')")
  | Some JNull =>
      throw (TypeError "Cannot read properties of null (reading 'replace')")
  | Some _ => throw (TypeError "item.phone.replace is not a function")
  end.

Definition new_MessageMedia (mime : string) (d : Value) (name : string)
  : M ItemEnv MessageMedia :=
  e <- get ;;
  match env_media e with
  | None => ret (mkMedia mime d name)
  | Some err => throw err
  end.

(** [await client.sendMessage(chatId, media, { caption: item.message })] *)
Definition client_sendMessage (chatId : string) (media : MessageMedia)
  (item : Json) : M ItemEnv unit :=
  e <- get ;;
  match env_client e with
  | None =>
      throw (TypeError
               "Cannot read properties of null (reading 'sendMessage')")
  | Some c =>
      caption <- member item "message" ;;
      emit (SendMessage c chatId media caption) ;;
      match env_send e with
      | None => ret tt
      | Some err => throw err
      end
  end.

(** *** Double-precision arithmetic

    JavaScript numbers are IEEE 754 binary64 values.  A finite double is
    a rational, and an arithmetic operation is the exact operation on
    rationals followed by rounding to the nearest double, ties to the
    even significand.  The rounding is written out here for finite
    results (overflow to infinity cannot occur in the range used). *)

(** Rounding to the nearest integer, ties to even. *)
Definition rne (x : Q) : Z :=
  let f := Qfloor x in
  match Qcompare (x - inject_Z f) (1 # 2) with
  | Lt => f
  | Gt => (f + 1)%Z
  | Eq => if Z.even f then f else (f + 1)%Z
  end.

(** For [x > 0], the integer [n] with [2^n <= x < 2^(n+1)]. *)
Definition floor_log2 (x : Q) : Z :=
  let p := Qnum x in
  let q := Zpos (Qden x) in
  let d := (Z.log2 p - Z.log2 q)%Z in
  if (if (0 <=? d)%Z then (q * 2 ^ d <=? p)%Z else (q <=? p * 2 ^ (- d))%Z)
  then d else (d - 1)%Z.

(** The exponent of the last place of the doubles around [x > 0]: 53
    significant bits, and no less than the subnormal spacing [2^-1074]. *)
Definition ulp_exponent (x : Q) : Z := Z.max (floor_log2 x - 52) (-1074).

Definition round_pos (x : Q) : Q :=
  let e := ulp_exponent x in
  if (e <=? 0)%Z then
    let s := (2 ^ (- e))%Z in
    Qmake (rne (x * inject_Z s)) (Z.to_pos s)
  else
    let s := (2 ^ e)%Z in
    inject_Z (rne (x / inject_Z s) * s).

(** The double nearest to the rational [x]. *)
Definition round64 (x : Q) : Q :=
  match Qcompare x 0 with
  | Eq => 0%Q
  | Gt => round_pos x
  | Lt => (- round_pos (- x))%Q
  end.

(** The rational a finite double stands for, and the computation of the
    source on the primitive doubles of the kernel, kept to compare
    [round64] with the hardware arithmetic. *)
Definition double_value (f : float) : Q :=
  match Prim2SF f with
  | S754_finite sign m e =>
      ((if sign then -1 else 1) * inject_Z (Zpos m) * Qpower 2 e)%Q
  | _ => 0%Q
  end.

Definition double_delay (r : float) : float := (r * 2000 + 1000)%float.

(** [Math.random() * 2000 + 1000], for the double [r] returned by
    [Math.random()]: a rounded product, then a rounded sum. *)
Definition delay_ms (r : Q) : Q := round64 (round64 (r * 2000) + 1000)%Q.

(** *** Template literals

    [`${v}`] converts [v] to a string.  Primitives and [undefined] always
    convert.  An object parsed from JSON converts through
    [Object.prototype.toString] unless it has an own [toString] field:
    that field is not callable, the inherited [valueOf] returns the
    object itself, and the conversion throws a [TypeError].  An array
    converts by joining the conversions of its elements ([null] elements
    give the empty string), so it throws when one of them does.  The
    text produced is not needed: log lines carry the value itself. *)

Definition has_key (k : string) (fields : list (string * Json)) : bool :=
  truthy (assoc k fields).

Fixpoint printable (v : Json) : bool :=
  match v with
  | JArr elems => forallb printable elems
  | JObj fields => negb (has_key "toString" fields)
  | _ => true
  end.

Definition template_value {S} (v : Value) : M S Value :=
  match v with
  | Some j =>
      if printable j then ret v
      else throw (TypeError "Cannot convert object to primitive value")
  | None => ret v
  end.

(** The body of the [try] block. *)
Definition try_send (item : Json) : M ItemEnv unit :=
  phone <- member item "phone" ;;
  sanitizedPhone <- phone_replace phone ;;
  let chatId := (sanitizedPhone ++ "@c.us")%string in
  imageBase64 <- member item "imageBase64" ;;
  media <- new_MessageMedia "image/png" imageBase64 "personalized-image.png" ;;
  client_sendMessage chatId media item ;;
  phone' <- member item "phone" ;;
  shown <- template_value phone' ;;
  console log [Txt "Message successfully sent to "; Val shown] ;;
  e <- get ;;
  emit (SetTimeout (delay_ms (env_random e))).

(** The [catch (error)] block.  The template literal reads [item.phone]
    and converts it to a string, and either step can throw; [error] is an
    [Error] object, so [error.message] is defined. *)
Definition catch_send (item : Json) (err : JsError) : M ItemEnv unit :=
  phone <- member item "phone" ;;
  shown <- template_value phone ;;
  console error [Txt "Failed to send message to "; Val shown; Txt ":";
                 Txt (message err)].

(** One iteration of [for (const item of messages)]. *)
Definition process_item (item : Json) : M ItemEnv unit :=
  try_catch (try_send item) (catch_send item).

(** The loop; [envs i] describes the world during iteration [i]. *)
Fixpoint drain_from (envs : nat -> ItemEnv) (i : nat) (messages : list Json)
  : Completion unit * list Effect :=
  match messages with
  | [] => (Normal tt, [Console log [Txt "Bulk sending process finished."]])
  | item :: rest =>
      match process_item item (envs i) with
      | (Normal _, _, w) =>
          match drain_from envs (S i) rest with (r, w') => (r, w ++ w') end
      | (Throw e, _, w) => (Throw e, w)
      end
  end.

(** [(async () => { ... })()]: nobody awaits the returned promise, so an
    exception that leaves the loop is an unhandled rejection. *)
Definition bulk_job (envs : nat -> ItemEnv) (messages : list Json)
  : list Effect :=
  match drain_from envs 0 messages with
  | (Normal _, w) => w
  | (Throw e, w) => w ++ [Uncaught e]
  end.

Definition background {S} (w : list Effect) : M S unit :=
  fun s => (Normal tt, s, w).

Definition dquote : string := String "034"%char EmptyString.

(** [app.post('/api/whatsapp/send-bulk', ...)], the same text in both
    programs.  [body] is [req.body]. *)
Definition post_send_bulk (body : Json) (envs : nat -> ItemEnv) : M State unit :=
  s <- get ;;
  if negb (Status_eqb (sessionStatus s) CONNECTED) then
    respond 400 (Body_result false "WhatsApp client is not connected.")
  else
    messages <- member body "messages" ;;
    match messages with
    | Some (JArr items) =>
        console log [Txt "Received bulk send request for ";
                     Num (List.length items); Txt " messages."] ;;
        respond 200
          (Body_result true "Bulk sending process started in the background.") ;;
        background (bulk_job envs items)
    | _ =>
        respond 400
          (Body_result false
             ("Invalid request: " ++ dquote ++ "messages" ++ dquote
              ++ " array not found.")%string)
    end.

(** [app.get('/api/whatsapp/status', ...)], the same in both programs. *)
Definition get_status : M State unit :=
  s <- get ;;
  respond 200 (Body_poll (sessionStatus s) (qrCodeData s)).

(** ** Steps of the event loop *)

Inductive Event : Type :=
| ReqConnect
| ReqStatus
| ReqSendBulk (body : Json) (envs : nat -> ItemEnv)
| ReqDisconnect (logout_settled : option JsError)
| QrEmitted (raw : string)
| QrRendered (result : JsError + string)
| Ready
| Disconnected (reason : string)
| AuthFailure (msg : string)
| InitializeRejected (err : JsError).

(** A handler that throws leaves the store as it is at the throw. *)
Definition run_handler (m : M State unit) (s : State) : State * list Effect :=
  match m s with
  | (Normal _, s', w) => (s', w)
  | (Throw e, s', w) => (s', w ++ [Uncaught e])
  end.

(** ** The program of [src/unnamed/part_000] *)

Module Part000.

(** [initializeWhatsApp], lines 17-83.  The four [client.on] calls and
    [client.initialize()] go through the global [client], as in the
    source. *)
Definition initializeWhatsApp : M State unit :=
  s <- get ;;
  if Status_eqb (sessionStatus s) CONNECTING && truthy (client s) then
    ret tt
  else
    console log [Txt "Initializing WhatsApp Client..."] ;;
    set_sessionStatus CONNECTING ;;
    c <- new_Client ;;
    set_client (Some c) ;;
    client_on "qr" ;;
    client_on "ready" ;;
    client_on "disconnected" ;;
    client_on "auth_failure" ;;
    client_initialize.

(** [client.on('qr', ...)]: the synchronous part, lines 44-46. *)
Definition on_qr (qr : string) : M State unit :=
  console log [Txt "QR code received, generating data URL..."] ;;
  emit (ToDataURL qr).

(** The callback handed to [qrcode.toDataURL], lines 46-54. *)
Definition on_qr_rendered (result : JsError + string) : M State unit :=
  match result with
  | inl err =>
      console error [Txt "Error generating QR code data URL:";
                     Txt (message err)] ;;
      set_sessionStatus ERROR
  | inr url =>
      set_qrCodeData (Some url) ;;
      console log [Txt "QR code data URL generated."]
  end.

(** [client.on('ready', ...)], lines 57-61. *)
Definition on_ready : M State unit :=
  console log [Txt "WhatsApp Client is ready!"] ;;
  set_sessionStatus CONNECTED ;;
  set_qrCodeData None.

(** [client.on('disconnected', ...)], lines 63-68. *)
Definition on_disconnected (reason : string) : M State unit :=
  console log [Txt "Client was logged out:"; Txt reason] ;;
  set_sessionStatus DISCONNECTED ;;
  client_destroy ;;
  set_qrCodeData None.

(** [client.on('auth_failure', ...)], lines 70-73. *)
Definition on_auth_failure (msg : string) : M State unit :=
  console error [Txt "Authentication failure:"; Txt msg] ;;
  set_sessionStatus ERROR.

(** [client.initialize().catch(...)], lines 75-82. *)
Definition on_initialize_rejected (err : JsError) : M State unit :=
  console error [Txt "Failed to initialize WhatsApp client:";
                 Txt (message err)] ;;
  set_sessionStatus ERROR ;;
  s <- get ;;
  if truthy (client s) then client_destroy else ret tt.

(** [app.get('/api/whatsapp/connect', ...)], lines 85-94. *)
Definition get_connect : M State unit :=
  s <- get ;;
  if Status_eqb (sessionStatus s) CONNECTED then
    respond 200 (Body_status "Already connected")
  else
    (if Status_eqb (sessionStatus s) DISCONNECTED
        || Status_eqb (sessionStatus s) ERROR
     then initializeWhatsApp else ret tt) ;;
    respond 202 (Body_status "Connection process initiated.").

(** [app.post('/api/whatsapp/disconnect', ...)], lines 127-144. *)
Definition post_disconnect (logout_settled : option JsError)
  (meanwhile : State -> State) : M State unit :=
  try_finally
    (try_catch
       (s <- get ;;
        if Status_eqb (sessionStatus s) CONNECTED && truthy (client s) then
          console log [Txt "Attempting to disconnect client..."] ;;
          client_logout ;;
          await logout_settled meanwhile ;;
          console log [Txt "Client successfully logged out."]
        else ret tt)
       (fun err =>
          console error [Txt "An error occurred during client logout:";
                         Txt (message err)]))
    (set_sessionStatus DISCONNECTED ;;
     set_client None ;;
     set_qrCodeData None ;;
     console log [Txt "Session has been reset to DISCONNECTED."] ;;
     respond 200 (Body_result true "Disconnection process finished.")).

Definition handle (ev : Event) : M State unit :=
  match ev with
  | ReqConnect => get_connect
  | ReqStatus => get_status
  | ReqSendBulk body envs => post_send_bulk body envs
  | ReqDisconnect r => post_disconnect r (fun s => s)
  | QrEmitted raw => on_qr raw
  | QrRendered r => on_qr_rendered r
  | Ready => on_ready
  | Disconnected reason => on_disconnected reason
  | AuthFailure msg => on_auth_failure msg
  | InitializeRejected err => on_initialize_rejected err
  end.

Definition step (ev : Event) (s : State) : State * list Effect :=
  run_handler (handle ev) s.

Fixpoint run (tr : list Event) (s : State) : State * list Effect :=
  match tr with
  | [] => (s, [])
  | ev :: rest =>
      match step ev s with
      | (s1, w1) => match run rest s1 with (s2, w2) => (s2, w1 ++ w2) end
      end
  end.

End Part000.

(** ** The program of [src/server.js] *)

Module ServerJs.

(** [initializeWhatsApp], lines 18-78. *)
Definition initializeWhatsApp : M State unit :=
  console log [Txt "Initializing WhatsApp Client..."] ;;
  c <- new_Client ;;
  set_client (Some c) ;;
  client_on "qr" ;;
  client_on "ready" ;;
  client_on "disconnected" ;;
  client_on "auth_failure" ;;
  client_initialize.

(** [client.on('qr', ...)]: the synchronous part, lines 41-44. *)
Definition on_qr (qr : string) : M State unit :=
  console log [Txt "QR code received, generating data URL..."] ;;
  set_sessionStatus CONNECTING ;;
  emit (ToDataURL qr).

(** The callback handed to [qrcode.toDataURL], lines 44-52.  The source
    logs the error object itself. *)
Definition on_qr_rendered (result : JsError + string) : M State unit :=
  match result with
  | inl err =>
      console error [Txt "Error generating QR code data URL:";
                     Txt (message err)] ;;
      set_sessionStatus ERROR
  | inr url =>
      set_qrCodeData (Some url) ;;
      console log [Txt "QR code data URL generated."]
  end.

(** [client.on('ready', ...)], lines 55-59. *)
Definition on_ready : M State unit :=
  console log [Txt "WhatsApp Client is ready!"] ;;
  set_sessionStatus CONNECTED ;;
  set_qrCodeData None.

(** [client.on('disconnected', ...)], lines 61-67. *)
Definition on_disconnected (reason : string) : M State unit :=
  console log [Txt "Client was logged out:"; Txt reason] ;;
  set_sessionStatus DISCONNECTED ;;
  client_destroy.

(** [client.on('auth_failure', ...)], lines 69-72. *)
Definition on_auth_failure (msg : string) : M State unit :=
  console error [Txt "Authentication failure:"; Txt msg] ;;
  set_sessionStatus ERROR.

(** [client.initialize().catch(...)], lines 74-77.  The source logs the
    error object itself. *)
Definition on_initialize_rejected (err : JsError) : M State unit :=
  console error [Txt "Failed to initialize WhatsApp client:";
                 Txt (message err)] ;;
  set_sessionStatus ERROR.

(** [app.get('/api/whatsapp/connect', ...)], lines 81-89. *)
Definition get_connect : M State unit :=
  s <- get ;;
  if Status_eqb (sessionStatus s) CONNECTED then
    respond 200 (Body_status "Already connected")
  else
    (if Status_eqb (sessionStatus s) DISCONNECTED
        || Status_eqb (sessionStatus s) ERROR
     then initializeWhatsApp else ret tt) ;;
    respond 202 (Body_status "Connection process initiated.").

(** [app.post('/api/whatsapp/disconnect', ...)], lines 138-147. *)
Definition post_disconnect (logout_settled : option JsError)
  (meanwhile : State -> State) : M State unit :=
  s <- get ;;
  if Status_eqb (sessionStatus s) CONNECTED && truthy (client s) then
    console log [Txt "Disconnecting client..."] ;;
    client_logout ;;
    await logout_settled meanwhile ;;
    respond 200 (Body_result true "Successfully disconnected.")
  else
    set_sessionStatus DISCONNECTED ;;
    respond 200
      (Body_result true "Client was not connected or already disconnected.").

Definition handle (ev : Event) : M State unit :=
  match ev with
  | ReqConnect => get_connect
  | ReqStatus => get_status
  | ReqSendBulk body envs => post_send_bulk body envs
  | ReqDisconnect r => post_disconnect r (fun s => s)
  | QrEmitted raw => on_qr raw
  | QrRendered r => on_qr_rendered r
  | Ready => on_ready
  | Disconnected reason => on_disconnected reason
  | AuthFailure msg => on_auth_failure msg
  | InitializeRejected err => on_initialize_rejected err
  end.

Definition step (ev : Event) (s : State) : State * list Effect :=
  run_handler (handle ev) s.

Fixpoint run (tr : list Event) (s : State) : State * list Effect :=
  match tr with
  | [] => (s, [])
  | ev :: rest =>
      match step ev s with
      | (s1, w1) => match run rest s1 with (s2, w2) => (s2, w1 ++ w2) end
      end
  end.

End ServerJs.

(** ** Vocabulary of the properties *)

Definition outcome_of {S A} (r : Completion A * S * list Effect)
  : Completion A := fst (fst r).
Definition store_of {S A} (r : Completion A * S * list Effect) : S :=
  snd (fst r).
Definition effects_of {S A} (r : Completion A * S * list Effect)
  : list Effect := snd r.

(** HTTP responses written, in order. *)
Fixpoint responses (w : list Effect) : list (nat * ResBody) :=
  match w with
  | [] => []
  | Respond code body :: rest => (code, body) :: responses rest
  | _ :: rest => responses rest
  end.

(** Destinations of the [sendMessage] calls issued, in order. *)
Fixpoint sends (w : list Effect) : list string :=
  match w with
  | [] => []
  | SendMessage _ chatId _ _ :: rest => chatId :: sends rest
  | _ :: rest => sends rest
  end.

(** Durations of the timers armed, in order. *)
Fixpoint timeouts (w : list Effect) : list Q :=
  match w with
  | [] => []
  | SetTimeout ms :: rest => ms :: timeouts rest
  | _ :: rest => timeouts rest
  end.

(** [Client] objects built. *)
Fixpoint spawned (w : list Effect) : list ClientId :=
  match w with
  | [] => []
  | NewClient c :: rest => c :: spawned rest
  | _ :: rest => spawned rest
  end.

(** [Client] objects on which [destroy()] was called. *)
Fixpoint destroyed (w : list Effect) : list ClientId :=
  match w with
  | [] => []
  | Destroy c :: rest => c :: destroyed rest
  | _ :: rest => destroyed rest
  end.

(** Exceptions that left a handler or the background loop. *)
Fixpoint uncaught (w : list Effect) : list JsError :=
  match w with
  | [] => []
  | Uncaught e :: rest => e :: uncaught rest
  | _ :: rest => uncaught rest
  end.

(** Writes to the three variables. *)
Fixpoint assignments (w : list Effect) : list Assignment :=
  match w with
  | [] => []
  | Assign a :: rest => a :: assignments rest
  | _ :: rest => assignments rest
  end.

(** The transport sessions alive after the history [w]: built and not
    destroyed. *)
Definition live (w : list Effect) : list ClientId :=
  filter (fun c => negb (existsb (Nat.eqb c) (destroyed w))) (spawned w).

(** The states in which a connect request must not start a client. *)
Definition active (s : State) : Prop :=
  sessionStatus s = CONNECTING \/ sessionStatus s = CONNECTED.

(** Every connect request of the trace [tr], run from [s] with the given
    step function, arrives while the session is active; other steps may
    come in between. *)
Fixpoint connects_while_active (step : Event -> State -> State * list Effect)
  (tr : list Event) (s : State) : Prop :=
  match tr with
  | [] => True
  | ev :: rest =>
      (ev = ReqConnect -> active s)
      /\ connects_while_active step rest (fst (step ev s))
  end.


(** [paced armed w]: no [sendMessage] is issued in [w] while [armed], and
    a send arms until a timer of at least 1000 ms is set. *)
Fixpoint paced (armed : bool) (w : list Effect) : bool :=
  match w with
  | [] => true
  | SendMessage _ _ _ _ :: rest => negb armed && paced true rest
  | SetTimeout ms :: rest =>
      if Qle_bool 1000 ms then paced false rest else paced armed rest
  | _ :: rest => paced armed rest
  end.

Definition has_string_phone (item : Json) : bool :=
  match item with
  | JObj fields =>
      match assoc "phone" fields with Some (JStr _) => true | _ => false end
  | _ => false
  end.

(** What the [catch] block of the drain loop prints. *)
Definition phone_of (item : Json) : Value :=
  match item with
  | JObj fields => assoc "phone" fields
  | _ => None
  end.

Definition failure_report (item : Json) (err : JsError) : Effect :=
  Console error [Txt "Failed to send message to "; Val (phone_of item);
                 Txt ":"; Txt (message err)].

(** Sample batches and worlds. *)
Definition alice : Json :=
  JObj [("phone", JStr "+1 (555) 010-0001"); ("message", JStr "Hello Alice");
        ("imageBase64", JStr "iVBORw0KGgo=")].
Definition bob : Json :=
  JObj [("phone", JStr "555.010.0002"); ("message", JStr "Hello Bob");
        ("imageBase64", JStr "iVBORw0KGgo=")].
Definition carol : Json :=
  JObj [("phone", JStr "5550100003"); ("message", JStr "Hello Carol");
        ("imageBase64", JStr "iVBORw0KGgo=")].

Definition calm : ItemEnv := mkEnv (Some 0) None None (1 # 2).
Definition calm_envs (i : nat) : ItemEnv := calm.
Definition rejecting : ItemEnv :=
  mkEnv (Some 0) None (Some (mkError "Error" "Evaluation failed")) (1 # 2).

(** Only iteration [k] meets a rejected send. *)
Definition rejects_at (k : nat) (i : nat) : ItemEnv :=
  if Nat.eqb i k then rejecting else calm.

(** ** Further vocabulary *)

Fixpoint all_digits (s : string) : bool :=
  match s with
  | EmptyString => true
  | String a rest => is_digit a && all_digits rest
  end.

(** The destination computed for an element with a string [phone]. *)
Definition chatId_of (item : Json) : string :=
  match phone_of item with
  | Some (JStr s) => (strip_non_digits s ++ "@c.us")%string
  | _ => EmptyString
  end.

(** The iteration reaches [client.sendMessage(...)] and calls it. *)
Definition attempted (e : ItemEnv) (item : Json) : bool :=
  has_string_phone item && negb (truthy (env_media e))
  && truthy (env_client e).

(** The effects the drain loop is made of. *)
Definition loop_effect (x : Effect) : bool :=
  match x with
  | Console _ _ | SendMessage _ _ _ _ | SetTimeout _ | Uncaught _ => true
  | _ => false
  end.

(** [Client] objects on which [logout()] was called. *)
Fixpoint logouts (w : list Effect) : list ClientId :=
  match w with
  | [] => []
  | Logout c :: rest => c :: logouts rest
  | _ :: rest => logouts rest
  end.

(** [req.body.messages] for a body that is not [null]. *)
Definition messages_of (body : Json) : Value :=
  match body with
  | JObj fields => assoc "messages" fields
  | _ => None
  end.

Definition is_array (v : Value) : bool :=
  match v with Some (JArr _) => true | _ => false end.

(** HTTP requests, as opposed to callbacks of the collaborators. *)
Definition is_request (ev : Event) : bool :=
  match ev with
  | ReqConnect | ReqStatus | ReqSendBulk _ _ | ReqDisconnect _ => true
  | _ => false
  end.

Fixpoint count_connects (tr : list Event) : nat :=
  match tr with
  | [] => 0
  | ReqConnect :: rest => S (count_connects rest)
  | _ :: rest => count_connects rest
  end.

Definition finished : Effect :=
  Console log [Txt "Bulk sending process finished."].

Definition null_phone_error : JsError :=
  TypeError "Cannot read properties of null (reading 'phone')".

Definition success_report (item : Json) : Effect :=
  Console log [Txt "Message successfully sent to "; Val (phone_of item)].

Definition in_timer_range (d : Q) : Prop := (1000 <= d)%Q /\ (d <= 3000)%Q.

(** The elements on which the [catch] block itself throws: [null], whose
    [phone] cannot be read, and the elements whose [phone] cannot be
    converted to a string. *)
Definition aborts (item : Json) : bool :=
  match item with
  | JNull => true
  | _ => match phone_of item with
         | Some j => negb (printable j)
         | None => false
         end
  end.

Definition unprintable_error : JsError :=
  TypeError "Cannot convert object to primitive value".

Definition abort_error (item : Json) : JsError :=
  match item with
  | JNull => null_phone_error
  | _ => unprintable_error
  end.

(** An element with an object for a phone that cannot be converted. *)
Definition mallory : Json :=
  JObj [("phone", JObj [("toString", JNum 1)]); ("message", JStr "Hello");
        ("imageBase64", JStr "iVBORw0KGgo=")].

(** A request the JSON body parser can hand over: [req.body] is never
    [null]. *)
Definition well_formed (ev : Event) : bool :=
  match ev with
  | ReqSendBulk JNull _ => false
  | _ => true
  end.

(** The events that report a failure of the collaborators. *)
Definition is_failure_event (ev : Event) : bool :=
  match ev with
  | AuthFailure _ | QrRendered (inl _) | InitializeRejected _ => true
  | _ => false
  end.

(** ** Algebra of the vocabulary *)

Lemma spawned_app w1 w2 : spawned (w1 ++ w2) = spawned w1 ++ spawned w2.
Proof.
  induction w1 as [|e w1 IH]; simpl; [reflexivity|].
  destruct e; simpl; rewrite ?IH; reflexivity.
Qed.

Lemma destroyed_app w1 w2 :
  destroyed (w1 ++ w2) = destroyed w1 ++ destroyed w2.
Proof.
  induction w1 as [|e w1 IH]; simpl; [reflexivity|].
  destruct e; simpl; rewrite ?IH; reflexivity.
Qed.

Lemma sends_app w1 w2 : sends (w1 ++ w2) = sends w1 ++ sends w2.
Proof.
  induction w1 as [|e w1 IH]; simpl; [reflexivity|].
  destruct e; simpl; rewrite ?IH; reflexivity.
Qed.

Lemma timeouts_app w1 w2 : timeouts (w1 ++ w2) = timeouts w1 ++ timeouts w2.
Proof.
  induction w1 as [|e w1 IH]; simpl; [reflexivity|].
  destruct e; simpl; rewrite ?IH; reflexivity.
Qed.

Lemma live_quiet h w :
  spawned w = [] -> destroyed w = [] -> live (h ++ w) = live h.
Proof.
  intros Hs Hd. unfold live.
  rewrite spawned_app, destroyed_app, Hs, Hd, !app_nil_r. reflexivity.
Qed.

(** ** Rounding to the nearest double *)

Lemma rne_inject (n : Z) : rne (inject_Z n) = n.
Proof.
  unfold rne. rewrite Qfloor_Z.
  assert (H : (inject_Z n - inject_Z n ?= 1 # 2)%Q = Lt).
  { apply (proj1 (Qlt_alt _ _)). lra. }
  rewrite H. reflexivity.
Qed.

Lemma rne_range (x : Q) : (Qfloor x <= rne x <= Qfloor x + 1)%Z.
Proof.
  unfold rne. destruct (x - inject_Z (Qfloor x) ?= 1 # 2)%Q;
    [destruct (Z.even (Qfloor x))| |]; lia.
Qed.

Lemma rne_mono (x y : Q) : (x <= y)%Q -> (rne x <= rne y)%Z.
Proof.
  intros Hxy. pose proof (Qfloor_resp_le _ _ Hxy) as Hf.
  destruct (Z.eq_dec (Qfloor x) (Qfloor y)) as [E | N].
  - unfold rne. rewrite <- E.
    destruct (x - inject_Z (Qfloor x) ?= 1 # 2)%Q eqn:Cx;
      destruct (y - inject_Z (Qfloor x) ?= 1 # 2)%Q eqn:Cy;
      try apply (proj2 (Qeq_alt _ _)) in Cx;
      try apply (proj2 (Qlt_alt _ _)) in Cx;
      try apply (proj2 (Qgt_alt _ _)) in Cx;
      try apply (proj2 (Qeq_alt _ _)) in Cy;
      try apply (proj2 (Qlt_alt _ _)) in Cy;
      try apply (proj2 (Qgt_alt _ _)) in Cy;
      try (destruct (Z.even (Qfloor x))); try lia; exfalso; lra.
  - pose proof (rne_range x). pose proof (rne_range y). lia.
Qed.

Lemma floor_log2_small (x : Q) :
  (0 < x)%Q -> (x < 4096)%Q -> (floor_log2 x <= 11)%Z.
Proof.
  destruct x as [p q]. unfold Qlt. simpl. intros Hp Hx.
  assert (Hp' : (0 < p)%Z) by lia.
  unfold floor_log2. cbn [Qnum Qden].
  set (d := (Z.log2 p - Z.log2 (Z.pos q))%Z).
  destruct (Z.log2_spec p Hp') as [Lp _].
  destruct (Z.log2_spec (Z.pos q) (Pos2Z.is_pos q)) as [_ Uq].
  pose proof (Z.log2_nonneg p) as Np.
  pose proof (Z.log2_nonneg (Z.pos q)) as Nq.
  assert (Hd : (d <= 12)%Z).
  { destruct (Z_le_gt_dec d 12) as [H | H]; [exact H | exfalso].
    assert (E : Z.log2 p = (Z.succ (Z.log2 (Z.pos q)) + (d - 1))%Z)
      by (unfold d; lia).
    rewrite E, Z.pow_add_r in Lp by lia.
    assert (H12 : (2 ^ 12 <= 2 ^ (d - 1))%Z)
      by (apply Z.pow_le_mono_r; lia).
    change (2 ^ 12)%Z with 4096%Z in H12.
    nia. }
  destruct (Z.eq_dec d 12) as [E | N].
  - rewrite E. change (0 <=? 12)%Z with true. cbv iota.
    change (2 ^ 12)%Z with 4096%Z.
    destruct (Z.pos q * 4096 <=? p)%Z eqn:T; [|lia].
    apply Z.leb_le in T. lia.
  - destruct (if (0 <=? d)%Z then (Z.pos q * 2 ^ d <=? p)%Z
              else (Z.pos q <=? p * 2 ^ (- d))%Z); lia.
Qed.

Lemma ulp_exponent_small (x : Q) :
  (0 < x)%Q -> (x < 4096)%Q -> (ulp_exponent x <= -41)%Z.
Proof.
  intros H0 H1. pose proof (@floor_log2_small x H0 H1). unfold ulp_exponent. lia.
Qed.

Lemma round_pos_form (x : Q) :
  (0 < x)%Q -> (x < 4096)%Q ->
  exists s, (0 < s)%Z
            /\ round_pos x = Qmake (rne (x * inject_Z s)) (Z.to_pos s).
Proof.
  intros H0 H1. pose proof (@ulp_exponent_small x H0 H1) as He.
  unfold round_pos. destruct (ulp_exponent x <=? 0)%Z eqn:T;
    [|apply Z.leb_gt in T; lia].
  exists (2 ^ (- ulp_exponent x))%Z. split; [|reflexivity].
  apply Z.pow_pos_nonneg; lia.
Qed.

Lemma round_pos_le_int (x : Q) (c : Z) :
  (0 < x)%Q -> (x < 4096)%Q -> (x <= inject_Z c)%Q ->
  (round_pos x <= inject_Z c)%Q.
Proof.
  intros H0 H1 Hc. destruct (@round_pos_form x H0 H1) as (s & Hs & ->).
  unfold Qle. simpl. rewrite Z2Pos.id by exact Hs.
  rewrite Z.mul_1_r, <- (rne_inject (c * s)).
  apply rne_mono. rewrite inject_Z_mult.
  apply Qmult_le_compat_r; [exact Hc|].
  change 0%Q with (inject_Z 0). rewrite <- Zle_Qle. lia.
Qed.

Lemma round_pos_ge_int (x : Q) (c : Z) :
  (0 < x)%Q -> (x < 4096)%Q -> (inject_Z c <= x)%Q ->
  (inject_Z c <= round_pos x)%Q.
Proof.
  intros H0 H1 Hc. destruct (@round_pos_form x H0 H1) as (s & Hs & ->).
  unfold Qle. simpl. rewrite Z2Pos.id by exact Hs.
  rewrite Z.mul_1_r, <- (rne_inject (c * s)).
  apply rne_mono. rewrite inject_Z_mult.
  apply Qmult_le_compat_r; [exact Hc|].
  change 0%Q with (inject_Z 0). rewrite <- Zle_Qle. lia.
Qed.

Lemma round64_between (x : Q) (lo hi : Z) :
  (0 <= lo)%Z -> (hi < 4096)%Z ->
  (inject_Z lo <= x)%Q -> (x <= inject_Z hi)%Q ->
  (inject_Z lo <= round64 x)%Q /\ (round64 x <= inject_Z hi)%Q.
Proof.
  intros Hlo Hhi H1 H2.
  assert (Hx0 : (0 <= x)%Q).
  { apply Qle_trans with (inject_Z lo); [|exact H1].
    change 0%Q with (inject_Z 0). rewrite <- Zle_Qle. exact Hlo. }
  assert (Hx1 : (x < 4096)%Q).
  { apply Qle_lt_trans with (inject_Z hi); [exact H2|].
    change 4096%Q with (inject_Z 4096). rewrite <- Zlt_Qlt. exact Hhi. }
  unfold round64. destruct (x ?= 0)%Q eqn:C.
  - apply (proj2 (Qeq_alt _ _)) in C. split.
    + rewrite <- C. exact H1.
    + rewrite <- C. exact H2.
  - apply (proj2 (Qlt_alt _ _)) in C. lra.
  - apply (proj2 (Qgt_alt _ _)) in C. split.
    + apply round_pos_ge_int; assumption.
    + apply round_pos_le_int; assumption.
Qed.

Lemma delay_bounds (r : Q) :
  (0 <= r)%Q -> (r < 1)%Q ->
  (1000 <= delay_ms r)%Q /\ (delay_ms r <= 3000)%Q.
Proof.
  intros H0 H1. unfold delay_ms.
  destruct (@round64_between (r * 2000) 0 2000) as [A B];
    [lia | lia | unfold inject_Z; lra | unfold inject_Z; lra |].
  change (inject_Z 0) with 0%Q in A. change (inject_Z 2000) with 2000%Q in B.
  destruct (@round64_between (round64 (r * 2000) + 1000) 1000 3000) as [C D];
    [lia | lia | unfold inject_Z; lra | unfold inject_Z; lra |].
  split; [exact C | exact D].
Qed.

(** [delay_ms] agrees with the double-precision computation on sample
    values of [Math.random()]: zero, the smallest subnormal, a half, a
    third, a tenth, and the two largest doubles below 1. *)
Lemma delay_ms_agrees_with_doubles :
  forallb
    (fun r => Qeq_bool (double_value (double_delay r))
                       (delay_ms (double_value r)))
    [0%float; 0x1p-1074%float; 0.5%float; (1 / 3)%float; (1 / 10)%float;
     0x1.23456789abcdep-7%float; (1 - 0x1p-52)%float; (1 - 0x1p-53)%float]
  = true.
Proof. vm_compute. reflexivity. Qed.

(** [Math.random()] may return [1 - 2^-53], the largest double below 1;
    the product rounds to [2000 - 2^-42] and the sum to exactly 3000. *)
Lemma delay_reaches_3000 :
  (0 <= 1 - (1 # 2 ^ 53))%Q /\ (1 - (1 # 2 ^ 53) < 1)%Q
  /\ (delay_ms (1 - (1 # 2 ^ 53)) == 3000)%Q.
Proof. repeat split; vm_compute; congruence. Qed.

(** ** One iteration of the drain loop, case by case *)

Lemma catch_send_cases (item : Json) (err : JsError) (e : ItemEnv) :
  catch_send item err e
  = if aborts item then (Throw (abort_error item), e, [])
    else (Normal tt, e, [failure_report item err]).
Proof.
  destruct item as [ | b | q | s | l | fields]; try reflexivity.
  unfold catch_send, failure_report, aborts, phone_of, bind, member, ret,
    template_value.
  destruct (assoc "phone" fields) as [j|]; [|reflexivity].
  destruct (printable j); reflexivity.
Qed.

Lemma attempted_not_aborting (e : ItemEnv) (item : Json) :
  attempted e item = true -> aborts item = false.
Proof.
  unfold attempted, aborts, has_string_phone, phone_of.
  destruct item as [ | b | q | s | l | fields]; try discriminate.
  destruct (assoc "phone" fields) as [[ | b | q | s | l | f]|];
    try discriminate. reflexivity.
Qed.

(** The [try] block throws before any effect when the send is not
    reached, throws after the send when the send is rejected, and
    otherwise completes with the send, the success report and the
    timer. *)
Lemma try_send_cases (item : Json) (e : ItemEnv) :
  (attempted e item = false
   /\ exists err, try_send item e = (Throw err, e, []))
  \/ (attempted e item = true
      /\ exists c media err,
           env_client e = Some c /\ env_send e = Some err
           /\ try_send item e
              = (Throw err, e,
                 [SendMessage c (chatId_of item) media
                              (match item with
                               | JObj fields => assoc "message" fields
                               | _ => None
                               end)]))
  \/ (attempted e item = true
      /\ exists c media,
           env_client e = Some c /\ env_send e = None
           /\ try_send item e
              = (Normal tt, e,
                 [SendMessage c (chatId_of item) media
                              (match item with
                               | JObj fields => assoc "message" fields
                               | _ => None
                               end);
                  success_report item;
                  SetTimeout (delay_ms (env_random e))])).
Proof.
  destruct e as [ec em es r].
  destruct item as [ | b | q | s | l | fields];
    try (left; split; [reflexivity | eexists; reflexivity]).
  unfold try_send, bind, member, ret, attempted, chatId_of, success_report,
    has_string_phone, phone_of.
  destruct (assoc "phone" fields) as [[ | b | q | s | l | f]|] eqn:Ep;
    simpl; rewrite ?Ep;
    try (left; split; [reflexivity | eexists; reflexivity]).
  destruct em as [em|]; simpl; rewrite ?Ep;
    [left; split; [reflexivity | eexists; reflexivity]|].
  destruct ec as [c|]; simpl; rewrite ?Ep;
    [|left; split; [reflexivity | eexists; reflexivity]].
  destruct es as [es|]; simpl; rewrite ?Ep.
  - right; left. split; [reflexivity|]. do 3 eexists. repeat split.
  - right; right. split; [reflexivity|]. do 2 eexists. repeat split.
Qed.

(** An iteration has exactly four shapes: when the [catch] block itself
    throws, the exception leaves the iteration with no effect at all;
    when the send is not reached, one failure report; when the send is
    rejected, the send and one failure report; otherwise the send, the
    success report and the timer. *)
Lemma iteration_cases (item : Json) (e : ItemEnv) :
  (aborts item = true /\ attempted e item = false
   /\ process_item item e = (Throw (abort_error item), e, []))
  \/ (aborts item = false /\ attempted e item = false
      /\ exists err,
           process_item item e = (Normal tt, e, [failure_report item err]))
  \/ (aborts item = false /\ attempted e item = true
      /\ exists c media err,
           env_client e = Some c /\ env_send e = Some err
           /\ process_item item e
              = (Normal tt, e,
                 [SendMessage c (chatId_of item) media
                              (match item with
                               | JObj fields => assoc "message" fields
                               | _ => None
                               end);
                  failure_report item err]))
  \/ (aborts item = false /\ attempted e item = true
      /\ exists c media,
           env_client e = Some c /\ env_send e = None
           /\ process_item item e
              = (Normal tt, e,
                 [SendMessage c (chatId_of item) media
                              (match item with
                               | JObj fields => assoc "message" fields
                               | _ => None
                               end);
                  success_report item;
                  SetTimeout (delay_ms (env_random e))])).
Proof.
  unfold process_item, try_catch.
  destruct (try_send_cases item e)
    as [(Ha & err & H) | [(Ha & c & m & err & Hc & Hs & H)
                         | (Ha & c & m & Hc & Hs & H)]];
    rewrite H.
  - rewrite catch_send_cases. destruct (aborts item) eqn:Hab.
    + left. repeat split; assumption.
    + right; left. repeat split; try assumption. exists err. reflexivity.
  - pose proof (attempted_not_aborting e item Ha) as Hab.
    rewrite catch_send_cases, Hab.
    right; right; left. repeat split; try assumption.
    exists c, m, err. repeat split; assumption.
  - pose proof (attempted_not_aborting e item Ha) as Hab.
    right; right; right. repeat split; try assumption.
    exists c, m. repeat split; assumption.
Qed.

(** ** Disconnect *)


(** C1, on [src/server.js]: when the session is connected and [logout()]
    rejects, the rejection leaves the handler, no response is written and
    the store keeps [CONNECTED] and the client handle; when [logout()]
    fulfils, the request is answered 200 and the handler itself resets
    nothing. *)
Theorem server_js_disconnect_skips_reset
  (c : ClientId) (q : option string) (n : nat) (err : JsError) :
  let s := mkState (Some c) CONNECTED q n in
  ServerJs.post_disconnect (Some err) (fun s => s) s
  = (Throw err, s, [Console log [Txt "Disconnecting client..."]; Logout c])
  /\ responses (snd (ServerJs.step (ReqDisconnect (Some err)) s)) = []
  /\ uncaught (snd (ServerJs.step (ReqDisconnect (Some err)) s)) = [err]
  /\ fst (ServerJs.step (ReqDisconnect (Some err)) s) = s
  /\ fst (ServerJs.step (ReqDisconnect None) s) = s.
Proof. cbv. repeat split. Qed.

(** ** Bulk send outside [CONNECTED] *)

(** C6: a bulk-send request received while the status is not [CONNECTED]
    is answered 400 with a failure body, issues no [sendMessage] and
    writes none of the three variables, in both programs. *)
Theorem send_bulk_refused_unless_connected
  (s : State) (body : Json) (envs : nat -> ItemEnv) :
  sessionStatus s <> CONNECTED ->
  let refusal :=
    [Respond 400 (Body_result false "WhatsApp client is not connected.")] in
  post_send_bulk body envs s = (Normal tt, s, refusal)
  /\ Part000.step (ReqSendBulk body envs) s = (s, refusal)
  /\ ServerJs.step (ReqSendBulk body envs) s = (s, refusal)
  /\ sends refusal = []
  /\ assignments refusal = [].
Proof.
  intros Hst refusal.
  assert (E : post_send_bulk body envs s = (Normal tt, s, refusal)).
  { destruct s as [c st q n]. destruct st; try reflexivity.
    exfalso. apply Hst. reflexivity. }
  unfold Part000.step, ServerJs.step, run_handler.
  simpl Part000.handle. simpl ServerJs.handle. rewrite E.
  repeat split.
Qed.

Lemma send_bulk_refused_unless_connected_witness :
  ServerJs.step
    (ReqSendBulk (JObj [("messages", JArr [JObj [("phone", JStr "1")]])])
                 (fun _ => mkEnv (Some 0) None None (1 # 2)))
    initial
  = (initial,
     [Respond 400 (Body_result false "WhatsApp client is not connected.")]).
Proof.
  refine (proj1 (proj2 (proj2 (send_bulk_refused_unless_connected
                                 initial _ _ _)))).
  simpl. discriminate.
Defined.

(** ** Authentication failure *)

(** C10: the [auth_failure] handler writes [sessionStatus] only.  The
    login token and the client handle stay as they were, so the next
    status poll answers [ERROR] together with the token rendered
    earlier. *)
Theorem auth_failure_writes_status_only (s : State) (msg : string) :
  let s' := mkState (client s) ERROR (qrCodeData s) (allocated s) in
  let w := [Console error [Txt "Authentication failure:"; Txt msg];
            Assign (Set_sessionStatus ERROR)] in
  Part000.step (AuthFailure msg) s = (s', w)
  /\ ServerJs.step (AuthFailure msg) s = (s', w)
  /\ snd (Part000.step ReqStatus s')
     = [Respond 200 (Body_poll ERROR (qrCodeData s))]
  /\ snd (ServerJs.step ReqStatus s')
     = [Respond 200 (Body_poll ERROR (qrCodeData s))]
  /\ responses
       (snd (Part000.run [ReqConnect; QrEmitted "XYZ";
                          QrRendered (inr "data:image/png;base64,XYZ");
                          AuthFailure msg; ReqStatus] initial))
     = [(202, Body_status "Connection process initiated.");
        (200, Body_poll ERROR (Some "data:image/png;base64,XYZ"))].
Proof. destruct s as [c st q n]. cbv. repeat split. Qed.

(** ** Connect *)

Lemma part000_connect_active (s : State) :
  active s ->
  fst (Part000.step ReqConnect s) = s
  /\ spawned (snd (Part000.step ReqConnect s)) = []
  /\ destroyed (snd (Part000.step ReqConnect s)) = []
  /\ List.length (responses (snd (Part000.step ReqConnect s))) = 1.
Proof.
  destruct s as [c st q n]. unfold active. simpl.
  intros [-> | ->]; cbv; repeat split.
Qed.

Lemma server_js_connect_active (s : State) :
  active s ->
  fst (ServerJs.step ReqConnect s) = s
  /\ spawned (snd (ServerJs.step ReqConnect s)) = []
  /\ destroyed (snd (ServerJs.step ReqConnect s)) = []
  /\ List.length (responses (snd (ServerJs.step ReqConnect s))) = 1.
Proof.
  destruct s as [c st q n]. unfold active. simpl.
  intros [-> | ->]; cbv; repeat split.
Qed.

Lemma responses_app w1 w2 :
  responses (w1 ++ w2) = responses w1 ++ responses w2.
Proof.
  induction w1 as [|e w1 IH]; simpl; [reflexivity|].
  destruct e; simpl; rewrite ?IH; reflexivity.
Qed.

Lemma part000_connects_active (s : State) (n : nat) :
  active s ->
  fst (Part000.run (repeat ReqConnect n) s) = s
  /\ spawned (snd (Part000.run (repeat ReqConnect n) s)) = []
  /\ destroyed (snd (Part000.run (repeat ReqConnect n) s)) = []
  /\ List.length (responses (snd (Part000.run (repeat ReqConnect n) s))) = n.
Proof.
  intros Ha. induction n as [|n IH]; [repeat split|].
  destruct (part000_connect_active Ha) as (H1 & H2 & H3 & H4).
  destruct IH as (I1 & I2 & I3 & I4).
  simpl. destruct (Part000.step ReqConnect s) as [s1 w1]. simpl in *. subst s1.
  destruct (Part000.run (repeat ReqConnect n) s) as [s2 w2]. simpl in *.
  rewrite spawned_app, destroyed_app, responses_app, length_app.
  rewrite H2, H3, H4, I2, I3, I4. repeat split. exact I1.
Qed.

Lemma server_js_connects_active (s : State) (n : nat) :
  active s ->
  fst (ServerJs.run (repeat ReqConnect n) s) = s
  /\ spawned (snd (ServerJs.run (repeat ReqConnect n) s)) = []
  /\ destroyed (snd (ServerJs.run (repeat ReqConnect n) s)) = []
  /\ List.length (responses (snd (ServerJs.run (repeat ReqConnect n) s))) = n.
Proof.
  intros Ha. induction n as [|n IH]; [repeat split|].
  destruct (server_js_connect_active Ha) as (H1 & H2 & H3 & H4).
  destruct IH as (I1 & I2 & I3 & I4).
  simpl. destruct (ServerJs.step ReqConnect s) as [s1 w1]. simpl in *. subst s1.
  destruct (ServerJs.run (repeat ReqConnect n) s) as [s2 w2]. simpl in *.
  rewrite spawned_app, destroyed_app, responses_app, length_app.
  rewrite H2, H3, H4, I2, I3, I4. repeat split. exact I1.
Qed.

(** Steps other than a connect request build no client. *)

Lemma process_item_spawns_nothing (item : Json) (e : ItemEnv) :
  spawned (effects_of (process_item item e)) = [].
Proof.
  destruct (iteration_cases item e)
    as [(_ & _ & H) | [(_ & _ & err & H)
        | [(_ & _ & c & m & err & _ & _ & H) | (_ & _ & c & m & _ & _ & H)]]];
    rewrite H; reflexivity.
Qed.

Lemma drain_spawns_nothing (envs : nat -> ItemEnv) (messages : list Json) :
  forall i, spawned (snd (drain_from envs i messages)) = [].
Proof.
  induction messages as [|item rest IH]; intros i; [reflexivity|].
  simpl. pose proof (process_item_spawns_nothing item (envs i)) as Hp.
  destruct (process_item item (envs i)) as [[[u|err] e'] w];
    unfold effects_of in Hp; simpl in Hp; [|exact Hp].
  specialize (IH (S i)).
  destruct (drain_from envs (S i) rest) as [r w']. simpl in *.
  rewrite spawned_app, Hp, IH. reflexivity.
Qed.

Lemma bulk_job_spawns_nothing (envs : nat -> ItemEnv) (messages : list Json) :
  spawned (bulk_job envs messages) = [].
Proof.
  unfold bulk_job. pose proof (drain_spawns_nothing envs messages 0) as H.
  destruct (drain_from envs 0 messages) as [[u|err] w]; simpl in H;
    [exact H|].
  rewrite spawned_app, H. reflexivity.
Qed.

Lemma run_handler_spawned (m : M State unit) (s : State) :
  spawned (snd (run_handler m s)) = spawned (effects_of (m s)).
Proof.
  unfold run_handler, effects_of.
  destruct (m s) as [[[u|e] s'] w]; simpl; [reflexivity|].
  rewrite spawned_app. simpl. apply app_nil_r.
Qed.

Lemma post_send_bulk_spawns_nothing
  (body : Json) (envs : nat -> ItemEnv) (s : State) :
  spawned (effects_of (post_send_bulk body envs s)) = [].
Proof.
  destruct s as [c st q n]. destruct st; try reflexivity.
  destruct body as [ | b | x | x | l | fields]; try reflexivity.
  unfold post_send_bulk, bind, member, ret, get, effects_of. simpl.
  destruct (assoc "messages" fields) as [[ | b | x | x | l | f]|];
    try reflexivity.
  simpl. apply bulk_job_spawns_nothing.
Qed.

Lemma part000_only_connect_spawns (ev : Event) (s : State) :
  ev <> ReqConnect -> spawned (snd (Part000.step ev s)) = [].
Proof.
  intros Hev. destruct s as [c st q n].
  destruct ev as [ | | body envs | r | raw | [err|url] | | reason | msg | err];
    try reflexivity.
  - contradiction Hev; reflexivity.
  - unfold Part000.step. rewrite run_handler_spawned.
    apply post_send_bulk_spawns_nothing.
  - destruct st, c, r; reflexivity.
  - destruct c; reflexivity.
  - destruct c; reflexivity.
Qed.

Lemma server_js_only_connect_spawns (ev : Event) (s : State) :
  ev <> ReqConnect -> spawned (snd (ServerJs.step ev s)) = [].
Proof.
  intros Hev. destruct s as [c st q n].
  destruct ev as [ | | body envs | r | raw | [err|url] | | reason | msg | err];
    try reflexivity.
  - contradiction Hev; reflexivity.
  - unfold ServerJs.step. rewrite run_handler_spawned.
    apply post_send_bulk_spawns_nothing.
  - destruct st, c, r; reflexivity.
  - destruct c; reflexivity.
Qed.

Lemma Event_is_connect (ev : Event) : {ev = ReqConnect} + {ev <> ReqConnect}.
Proof. destruct ev; (left; reflexivity) || (right; discriminate). Qed.

Lemma part000_trace_spawns_nothing (tr : list Event) :
  forall s, connects_while_active Part000.step tr s ->
            spawned (snd (Part000.run tr s)) = [].
Proof.
  induction tr as [|ev rest IH]; intros s H; [reflexivity|].
  destruct H as [Hev Hrest]. specialize (IH _ Hrest). simpl.
  assert (Hs : spawned (snd (Part000.step ev s)) = []).
  { destruct (Event_is_connect ev) as [-> | Hne].
    - apply (part000_connect_active (Hev eq_refl)).
    - apply (part000_only_connect_spawns s Hne). }
  destruct (Part000.step ev s) as [s1 w1]. simpl in *.
  destruct (Part000.run rest s1) as [s2 w2]. simpl in *.
  rewrite spawned_app, Hs, IH. reflexivity.
Qed.

Lemma server_js_trace_spawns_nothing (tr : list Event) :
  forall s, connects_while_active ServerJs.step tr s ->
            spawned (snd (ServerJs.run tr s)) = [].
Proof.
  induction tr as [|ev rest IH]; intros s H; [reflexivity|].
  destruct H as [Hev Hrest]. specialize (IH _ Hrest). simpl.
  assert (Hs : spawned (snd (ServerJs.step ev s)) = []).
  { destruct (Event_is_connect ev) as [-> | Hne].
    - apply (server_js_connect_active (Hev eq_refl)).
    - apply (server_js_only_connect_spawns s Hne). }
  destruct (ServerJs.step ev s) as [s1 w1]. simpl in *.
  destruct (ServerJs.run rest s1) as [s2 w2]. simpl in *.
  rewrite spawned_app, Hs, IH. reflexivity.
Qed.

Lemma filter_weaker_is_longer (d1 d2 l : list nat) :
  List.length
    (filter (fun c => negb (existsb (Nat.eqb c) (d1 ++ d2))) l)
  <= List.length (filter (fun c => negb (existsb (Nat.eqb c) d1)) l).
Proof.
  induction l as [|c l IH]; [reflexivity|].
  cbn [filter]. rewrite existsb_app.
  destruct (existsb (Nat.eqb c) d1), (existsb (Nat.eqb c) d2);
    cbn [negb orb List.length];
    [exact IH | exact IH | apply le_S; exact IH | apply le_n_S; exact IH].
Qed.

Lemma live_shrinks h w :
  spawned w = [] -> List.length (live (h ++ w)) <= List.length (live h).
Proof.
  intros Hs. unfold live.
  rewrite spawned_app, destroyed_app, Hs, app_nil_r.
  apply filter_weaker_is_longer.
Qed.

(** C4: connect requests issued while the status is [CONNECTING] or
    [CONNECTED] build no [Client].  In either program, along any trace of
    requests and client events in which every connect request arrives in
    one of these two states, no client is spawned, so the live sessions of
    any history do not grow in number: a history with at most one live
    session keeps at most one.  In particular any number of connect
    requests in a row leaves the store as it was. *)
Theorem connect_while_active_spawns_nothing (tr : list Event) (s : State) :
  (connects_while_active Part000.step tr s ->
   spawned (snd (Part000.run tr s)) = []
   /\ forall h, List.length (live h) <= 1 ->
                List.length (live (h ++ snd (Part000.run tr s))) <= 1)
  /\ (connects_while_active ServerJs.step tr s ->
      spawned (snd (ServerJs.run tr s)) = []
      /\ forall h, List.length (live h) <= 1 ->
                   List.length (live (h ++ snd (ServerJs.run tr s))) <= 1)
  /\ (active s ->
      forall n,
        fst (Part000.run (repeat ReqConnect n) s) = s
        /\ fst (ServerJs.run (repeat ReqConnect n) s) = s
        /\ spawned (snd (Part000.run (repeat ReqConnect n) s)) = []
        /\ spawned (snd (ServerJs.run (repeat ReqConnect n) s)) = []).
Proof.
  split; [|split].
  - intros H. pose proof (part000_trace_spawns_nothing tr s H) as Hs.
    split; [exact Hs|]. intros h Hh.
    pose proof (live_shrinks h _ Hs). lia.
  - intros H. pose proof (server_js_trace_spawns_nothing tr s H) as Hs.
    split; [exact Hs|]. intros h Hh.
    pose proof (live_shrinks h _ Hs). lia.
  - intros Ha n.
    destruct (part000_connects_active n Ha) as (P1 & P2 & _).
    destruct (server_js_connects_active n Ha) as (S1 & S2 & _).
    repeat split; assumption.
Qed.

Lemma connect_while_active_spawns_nothing_witness :
  let s := mkState (Some 0) CONNECTING None 1 in
  let tr := [ReqConnect; QrEmitted "XYZ"; ReqConnect; Ready; ReqConnect] in
  spawned (snd (Part000.run tr s)) = []
  /\ spawned (snd (ServerJs.run tr s)) = []
  /\ fst (Part000.run (repeat ReqConnect 3) s) = s.
Proof.
  intros s tr.
  destruct (connect_while_active_spawns_nothing tr s) as (P & Q & R).
  split; [|split].
  - apply P. simpl. unfold active. simpl.
    repeat split; intros; try discriminate; auto.
  - apply Q. simpl. unfold active. simpl.
    repeat split; intros; try discriminate; auto.
  - apply (R (or_introl eq_refl) 3).
Defined.

(** In [src/unnamed/part_000] a connect request received in [DISCONNECTED]
    or [ERROR] writes [CONNECTING] before it builds the client and before
    it starts the initialization; the request ends in [CONNECTING] with
    the new handle, and the connect requests that follow start nothing. *)
Lemma part000_connect_marks_connecting_first
  (c : option ClientId) (st : Status) (q : option string) (n k : nat) :
  st = DISCONNECTED \/ st = ERROR ->
  let s' := mkState (Some n) CONNECTING q (S n) in
  Part000.step ReqConnect (mkState c st q n)
  = (s',
     [Console log [Txt "Initializing WhatsApp Client..."];
      Assign (Set_sessionStatus CONNECTING);
      NewClient n;
      Assign (Set_client (Some n));
      Listen n "qr"; Listen n "ready"; Listen n "disconnected";
      Listen n "auth_failure";
      Initialize n;
      Respond 202 (Body_status "Connection process initiated.")])
  /\ spawned (snd (Part000.run (ReqConnect :: repeat ReqConnect k)
                               (mkState c st q n))) = [n].
Proof.
  intros Hst s'.
  assert (E : Part000.step ReqConnect (mkState c st q n)
              = (s', [Console log [Txt "Initializing WhatsApp Client..."];
                      Assign (Set_sessionStatus CONNECTING);
                      NewClient n;
                      Assign (Set_client (Some n));
                      Listen n "qr"; Listen n "ready";
                      Listen n "disconnected"; Listen n "auth_failure";
                      Initialize n;
                      Respond 202
                        (Body_status "Connection process initiated.")])).
  { destruct Hst as [-> | ->]; destruct c; reflexivity. }
  split; [exact E|].
  change (Part000.run (ReqConnect :: repeat ReqConnect k) (mkState c st q n))
    with (match Part000.step ReqConnect (mkState c st q n) with
          | (s1, w1) =>
              match Part000.run (repeat ReqConnect k) s1 with
              | (s2, w2) => (s2, w1 ++ w2)
              end
          end).
  rewrite E.
  assert (Ha : active s') by (left; reflexivity).
  destruct (part000_connects_active k Ha) as (_ & H2 & _).
  destruct (Part000.run (repeat ReqConnect k) s') as [s2 w2].
  simpl in *. rewrite H2. reflexivity.
Qed.

(** C5, on [src/server.js]: [initializeWhatsApp] never writes
    [sessionStatus]; after a connect request received in [DISCONNECTED]
    the status is still [DISCONNECTED], and a second connect request
    builds a second client while the first is alive. *)
Theorem server_js_connect_leaves_status_stale
  (c : option ClientId) (q : option string) (n : nat) :
  let s := mkState c DISCONNECTED q n in
  fst (ServerJs.step ReqConnect s) = mkState (Some n) DISCONNECTED q (S n)
  /\ assignments (snd (ServerJs.step ReqConnect s)) = [Set_client (Some n)]
  /\ spawned (snd (ServerJs.run [ReqConnect; ReqConnect] s)) = [n; S n]
  /\ destroyed (snd (ServerJs.run [ReqConnect; ReqConnect] s)) = []
  /\ live (snd (ServerJs.run [ReqConnect; ReqConnect] initial)) = [0; 1].
Proof. cbv. repeat split. Qed.

(** ** Failure of [initialize()] *)

(** In [src/unnamed/part_000] the rejection handler writes [ERROR],
    destroys the client the handle holds and answers nobody; the connect
    request had been answered 202 in its own step, and the next status
    poll shows [ERROR]. *)
Lemma part000_init_failure_releases
  (c : ClientId) (st : Status) (q : option string) (n : nat) (err : JsError) :
  let s' := mkState (Some c) ERROR q n in
  Part000.step (InitializeRejected err) (mkState (Some c) st q n)
  = (s',
     [Console error [Txt "Failed to initialize WhatsApp client:";
                     Txt (message err)];
      Assign (Set_sessionStatus ERROR);
      Destroy c])
  /\ snd (Part000.step ReqStatus s') = [Respond 200 (Body_poll ERROR q)]
  /\ responses (snd (Part000.run [ReqConnect; InitializeRejected err;
                                  ReqStatus] initial))
     = [(202, Body_status "Connection process initiated.");
        (200, Body_poll ERROR None)]
  /\ live (snd (Part000.run [ReqConnect; InitializeRejected err] initial))
     = [].
Proof. cbv. repeat split. Qed.

(** C8, on [src/server.js]: the rejection handler writes [ERROR] and
    nothing else; [destroy()] is not called, so the client whose start
    failed stays alive and stays in the handle.  Nothing is answered and
    the next status poll shows [ERROR]. *)
Theorem server_js_init_failure_keeps_client
  (c : ClientId) (st : Status) (q : option string) (n : nat) (err : JsError) :
  let s' := mkState (Some c) ERROR q n in
  ServerJs.step (InitializeRejected err) (mkState (Some c) st q n)
  = (s',
     [Console error [Txt "Failed to initialize WhatsApp client:";
                     Txt (message err)];
      Assign (Set_sessionStatus ERROR)])
  /\ snd (ServerJs.step ReqStatus s') = [Respond 200 (Body_poll ERROR q)]
  /\ destroyed (snd (ServerJs.run [ReqConnect; InitializeRejected err]
                                  initial)) = []
  /\ live (snd (ServerJs.run [ReqConnect; InitializeRejected err] initial))
     = [0].
Proof. cbv. repeat split. Qed.

(** ** The drain loop *)

Lemma catch_send_reports (item : Json) (err : JsError) (e : ItemEnv) :
  aborts item = false ->
  catch_send item err e = (Normal tt, e, [failure_report item err]).
Proof. intros Hn. rewrite catch_send_cases, Hn. reflexivity. Qed.

Lemma try_send_keeps_env (item : Json) (e : ItemEnv) :
  store_of (try_send item e) = e /\ uncaught (effects_of (try_send item e)) = [].
Proof.
  destruct (try_send_cases item e)
    as [(_ & err & H) | [(_ & c & m & err & _ & _ & H)
                        | (_ & c & m & _ & _ & H)]];
    rewrite H; split; reflexivity.
Qed.

Lemma try_send_needs_string_phone (item : Json) (e : ItemEnv) :
  has_string_phone item = false ->
  exists msg, try_send item e = (Throw (TypeError msg), e, []).
Proof.
  destruct item as [ | b | q | s | l | fields]; simpl; intros H;
    try (eexists; reflexivity).
  unfold try_send, bind, member, ret.
  destruct (assoc "phone" fields) as [[ | b | q | s | l | f]|];
    try discriminate H; eexists; reflexivity.
Qed.

(** One iteration on an element whose [catch] block does not throw
    completes normally: what the [try] block throws is reported by the
    [catch] block. *)
Lemma process_item_contained (item : Json) (e : ItemEnv) :
  aborts item = false ->
  exists w,
    process_item item e = (Normal tt, e, w)
    /\ uncaught w = []
    /\ (forall err e' w0,
          try_send item e = (Throw err, e', w0) ->
          w = w0 ++ [failure_report item err])
    /\ (forall u e' w0, try_send item e = (Normal u, e', w0) -> w = w0).
Proof.
  intros Hn. unfold process_item, try_catch.
  destruct (try_send_keeps_env item e) as [Hs Hu].
  destruct (try_send item e) as [[r e1] w0].
  unfold store_of, effects_of in Hs, Hu. simpl in Hs, Hu. subst e1.
  destruct r as [[]|err].
  - exists w0. repeat split; try assumption.
    + intros err e' w1 H. discriminate H.
    + intros u e' w1 H. injection H as _ _ ->. reflexivity.
  - rewrite (@catch_send_reports item err e Hn).
    exists (w0 ++ [failure_report item err]). repeat split.
    + clear - Hu. induction w0 as [|x w0 IH]; [reflexivity|].
      destruct x; simpl in *; try apply IH; try assumption. discriminate Hu.
    + intros err' e' w1 H. injection H as -> _ ->. reflexivity.
    + intros u e' w1 H. discriminate H.
Qed.

(** For an element whose [phone] is missing, is a primitive, or is an
    object or array that converts to a string, every exception of the
    [try] block is reported by the [catch] block, the iteration completes
    normally and the loop goes on with the next element. *)
Lemma printable_item_failure_is_contained
  (item : Json) (envs : nat -> ItemEnv) (i : nat) (rest : list Json) :
  aborts item = false ->
  exists w,
    process_item item (envs i) = (Normal tt, envs i, w)
    /\ uncaught w = []
    /\ drain_from envs i (item :: rest)
       = (fst (drain_from envs (S i) rest),
          w ++ snd (drain_from envs (S i) rest))
    /\ (forall err e' w0,
          try_send item (envs i) = (Throw err, e', w0) ->
          w = w0 ++ [failure_report item err])
    /\ (has_string_phone item = false ->
        exists msg, w = [failure_report item (TypeError msg)]).
Proof.
  intros Hn.
  destruct (@process_item_contained item (envs i) Hn) as (w & Hp & Hu & Hc & _).
  exists w. repeat split; try assumption.
  - simpl. rewrite Hp. destruct (drain_from envs (S i) rest). reflexivity.
  - intros Hph.
    destruct (try_send_needs_string_phone item (envs i) Hph) as [msg Ht].
    exists msg. apply (Hc _ _ _ Ht).
Qed.

(** C9: an element that is a non-null object can still break the loop.
    When its [phone] is an object with an own [toString] field, the
    [try] block throws (the phone has no [replace] method) and the
    template literal of the [catch] block throws again, because the
    phone cannot be converted to a string: the exception leaves the
    loop, the elements after it are never processed and the end of the
    loop is never logged.  The request that carries such a batch passes
    the validation of the handler, in both programs. *)
Theorem unprintable_phone_aborts_batch
  (envs : nat -> ItemEnv) (rest : list Json) :
  let batch := [alice; mallory; bob] in
  let request := ReqSendBulk (JObj [("messages", JArr batch)]) calm_envs in
  let connected := mkState (Some 0) CONNECTED None 1 in
  mallory <> JNull
  /\ process_item mallory (envs 0) = (Throw unprintable_error, envs 0, [])
  /\ bulk_job envs (mallory :: rest) = [Uncaught unprintable_error]
  /\ sends (bulk_job calm_envs batch) = ["15550100001@c.us"]
  /\ uncaught (bulk_job calm_envs batch) = [unprintable_error]
  /\ last (bulk_job calm_envs batch) finished = Uncaught unprintable_error
  /\ responses (snd (Part000.step request connected))
     = [(200, Body_result true
                "Bulk sending process started in the background.")]
  /\ sends (snd (Part000.step request connected)) = ["15550100001@c.us"]
  /\ sends (snd (ServerJs.step request connected)) = ["15550100001@c.us"].
Proof.
  cbv zeta. split; [discriminate|].
  assert (H : process_item mallory (envs 0)
              = (Throw unprintable_error, envs 0, [])).
  { destruct (envs 0) as [ec em es r]. reflexivity. }
  split; [exact H|]. split.
  - unfold bulk_job. cbn [drain_from]. rewrite H. reflexivity.
  - vm_compute. repeat split.
Qed.

(** A batch of three in which the second send is rejected: the third is
    still sent, and the loop reaches its end. *)
Lemma third_item_sent_after_second_fails :
  sends (bulk_job (rejects_at 1) [alice; bob; carol])
  = ["15550100001@c.us"; "5550100002@c.us"; "5550100003@c.us"]
  /\ uncaught (bulk_job (rejects_at 1) [alice; bob; carol]) = []
  /\ last (bulk_job (rejects_at 1) [alice; bob; carol]) (Uncaught (TypeError "none"))
     = Console log [Txt "Bulk sending process finished."].
Proof. vm_compute. repeat split. Qed.

(** C2: a [null] element of [messages] makes the [catch] block itself
    throw (it reads [item.phone] again), so the exception leaves the loop:
    the elements after it are never processed and the loop never reports
    its end.  The request that carries such a batch passes the validation
    of the handler and is answered 200, in both programs. *)
Theorem null_item_aborts_batch (envs : nat -> ItemEnv) (rest : list Json) :
  let oops :=
    TypeError "Cannot read properties of null (reading 'phone')" in
  let batch := [alice; JNull; bob] in
  let request := ReqSendBulk (JObj [("messages", JArr batch)]) calm_envs in
  let connected := mkState (Some 0) CONNECTED None 1 in
  bulk_job envs (JNull :: rest) = [Uncaught oops]
  /\ sends (bulk_job calm_envs batch) = ["15550100001@c.us"]
  /\ uncaught (bulk_job calm_envs batch) = [oops]
  /\ last (bulk_job calm_envs batch) (Uncaught oops) = Uncaught oops
  /\ responses (snd (Part000.step request connected))
     = [(200, Body_result true
                "Bulk sending process started in the background.")]
  /\ sends (snd (Part000.step request connected)) = ["15550100001@c.us"]
  /\ sends (snd (ServerJs.step request connected)) = ["15550100001@c.us"].
Proof. cbv zeta. split; [reflexivity | vm_compute; repeat split]. Qed.

(** ** Pacing of the drain loop *)

(** C3 as stated fails: when the first send of a batch of two is
    rejected, the second send is issued right after the failure report,
    with no timer in between. *)
Lemma failed_send_is_not_followed_by_pause :
  bulk_job (rejects_at 0) [alice; bob]
  = [SendMessage 0 "15550100001@c.us"
       (mkMedia "image/png" (Some (JStr "iVBORw0KGgo="))
                "personalized-image.png")
       (Some (JStr "Hello Alice"));
     failure_report alice (mkError "Error" "Evaluation failed");
     SendMessage 0 "5550100002@c.us"
       (mkMedia "image/png" (Some (JStr "iVBORw0KGgo="))
                "personalized-image.png")
       (Some (JStr "Hello Bob"));
     Console log [Txt "Message successfully sent to ";
                  Val (Some (JStr "555.010.0002"))];
     SetTimeout (delay_ms (1 # 2));
     Console log [Txt "Bulk sending process finished."]]
  /\ paced false (bulk_job (rejects_at 0) [alice; bob]) = false.
Proof. split; reflexivity. Qed.

(** The two shapes of an iteration: a completed [try] block is one send,
    one success report and one timer; a [try] block that throws arms no
    timer, and its exception is reported unless the [catch] block throws
    too. *)
Lemma iteration_shape (item : Json) (e : ItemEnv) :
  match outcome_of (try_send item e) with
  | Normal _ =>
      exists c chatId media caption,
        process_item item e
        = (Normal tt, e,
           [SendMessage c chatId media caption;
            success_report item;
            SetTimeout (delay_ms (env_random e))])
  | Throw err =>
      timeouts (effects_of (try_send item e)) = []
      /\ (aborts item = false ->
          process_item item e
          = (Normal tt, e,
             effects_of (try_send item e) ++ [failure_report item err]))
  end.
Proof.
  unfold process_item, try_catch.
  destruct (try_send_cases item e)
    as [(_ & err & H) | [(_ & c & m & err & _ & _ & H)
                        | (_ & c & m & _ & _ & H)]];
    rewrite H; unfold outcome_of, effects_of; cbn [fst snd].
  - split; [reflexivity|]. intros Hn.
    rewrite (@catch_send_reports item err e Hn). reflexivity.
  - split; [reflexivity|]. intros Hn.
    rewrite (@catch_send_reports item err e Hn). reflexivity.
  - do 4 eexists. reflexivity.
Qed.

(** A batch whose every iteration succeeds is paced: each send is
    followed by a timer of at least 1000 ms before the next send. *)
Lemma successful_batch_is_paced (envs : nat -> ItemEnv) (messages : list Json) :
  (forall k, (0 <= env_random (envs k))%Q /\ (env_random (envs k) < 1)%Q) ->
  forall i,
    (forall k item,
       nth_error messages k = Some item ->
       exists u, outcome_of (try_send item (envs (i + k))) = Normal u) ->
    fst (drain_from envs i messages) = Normal tt
    /\ paced false (snd (drain_from envs i messages)) = true.
Proof.
  intros Hr. induction messages as [|item rest IH]; intros i Hok.
  - split; reflexivity.
  - destruct (Hok 0 item eq_refl) as [u Hu]. rewrite Nat.add_0_r in Hu.
    pose proof (iteration_shape item (envs i)) as Hshape.
    rewrite Hu in Hshape.
    destruct Hshape as (c & chatId & media & caption & Hp).
    assert (Hrest : forall k it,
               nth_error rest k = Some it ->
               exists u', outcome_of (try_send it (envs (S i + k))) = Normal u').
    { intros k it Hk. specialize (Hok (S k) it Hk).
      replace (S i + k) with (i + S k) by lia. exact Hok. }
    destruct (IH (S i) Hrest) as [I1 I2].
    cbn [drain_from]. rewrite Hp.
    destruct (drain_from envs (S i) rest) as [r w']. simpl in I1, I2.
    split; [exact I1|].
    unfold success_report. cbn [app paced negb andb snd].
    assert (Hd : Qle_bool 1000 (delay_ms (env_random (envs i))) = true).
    { apply Qle_bool_iff. destruct (Hr i) as [H0 H1].
      apply (delay_bounds H0 H1). }
    rewrite Hd. exact I2.
Qed.

(** C3, amended: the timer is armed at the end of the [try] block.  An
    iteration whose [try] block completes issues one send, reports the
    success, pauses for [Math.random() * 2000 + 1000] ms, computed in
    double precision, which is at least 1000 and at most 3000, and then
    the loop goes on with the next element.  An iteration whose [try]
    block throws arms no timer: once the [catch] block has reported the
    failure, the loop goes on with the next element at once. *)
Theorem pause_follows_successful_send_only
  (envs : nat -> ItemEnv) (i : nat) (item : Json) (rest : list Json) :
  (0 <= env_random (envs i))%Q -> (env_random (envs i) < 1)%Q ->
  let d := delay_ms (env_random (envs i)) in
  let next := drain_from envs (S i) rest in
  (1000 <= d)%Q /\ (d <= 3000)%Q
  /\ match outcome_of (try_send item (envs i)) with
     | Normal _ =>
         exists c chatId media caption,
           drain_from envs i (item :: rest)
           = (fst next,
              [SendMessage c chatId media caption; success_report item;
               SetTimeout d] ++ snd next)
     | Throw err =>
         timeouts (effects_of (try_send item (envs i))) = []
         /\ (aborts item = false ->
             drain_from envs i (item :: rest)
             = (fst next,
                (effects_of (try_send item (envs i))
                   ++ [failure_report item err]) ++ snd next))
     end.
Proof.
  intros H0 H1 d next.
  destruct (delay_bounds H0 H1) as [Hlo Hhi].
  split; [exact Hlo|]. split; [exact Hhi|].
  pose proof (iteration_shape item (envs i)) as Hshape.
  destruct (outcome_of (try_send item (envs i))) as [u|err].
  - destruct Hshape as (c & chatId & media & caption & Hp).
    exists c, chatId, media, caption.
    cbn [drain_from]. rewrite Hp. fold next. destruct next. reflexivity.
  - destruct Hshape as [Ht Hp]. split; [exact Ht|]. intros Hn.
    cbn [drain_from]. rewrite (Hp Hn). fold next. destruct next. reflexivity.
Qed.

Lemma pause_follows_successful_send_only_witness :
  (1000 <= delay_ms (1 # 2))%Q /\ (delay_ms (1 # 2) <= 3000)%Q
  /\ drain_from (rejects_at 0) 0 [alice; bob]
     = (fst (drain_from (rejects_at 0) 1 [bob]),
        (effects_of (try_send alice rejecting)
           ++ [failure_report alice (mkError "Error" "Evaluation failed")])
          ++ snd (drain_from (rejects_at 0) 1 [bob])).
Proof.
  assert (H0 : (0 <= env_random (rejects_at 0 0))%Q) by (simpl; lra).
  assert (H1 : (env_random (rejects_at 0 0) < 1)%Q) by (simpl; lra).
  destruct (@pause_follows_successful_send_only
              (rejects_at 0) 0 alice [bob] H0 H1) as (Hlo & Hhi & Hm).
  split; [exact Hlo|]. split; [exact Hhi|].
  destruct Hm as [_ Hd]. apply Hd. reflexivity.
Defined.

(** ** The login token *)

Lemma run_handler_store (m : M State unit) (s : State) :
  fst (run_handler m s) = store_of (m s).
Proof.
  unfold run_handler, store_of. destruct (m s) as [[[u|e] s'] w]; reflexivity.
Qed.

Lemma post_send_bulk_keeps_store
  (body : Json) (envs : nat -> ItemEnv) (s : State) :
  store_of (post_send_bulk body envs s) = s.
Proof.
  destruct s as [c st q n]. destruct st; try reflexivity.
  destruct body as [ | b | x | x | l | fields]; try reflexivity.
  unfold post_send_bulk, bind, member, ret, get, store_of. simpl.
  destruct (assoc "messages" fields) as [[ | b | x | x | l | f]|];
    reflexivity.
Qed.



(** ** The scenario of the specification

    Connect, scan, poll, send two items, disconnect, poll, on
    [src/unnamed/part_000]. *)
Example connect_scan_send_disconnect :
  let url := "data:image/png;base64,XYZ" in
  let tr := [ReqConnect; QrEmitted "XYZ"; QrRendered (inr url); ReqStatus;
             Ready; ReqStatus;
             ReqSendBulk (JObj [("messages", JArr [alice; bob])]) calm_envs;
             ReqDisconnect None; ReqStatus] in
  responses (snd (Part000.run tr initial))
  = [(202, Body_status "Connection process initiated.");
     (200, Body_poll CONNECTING (Some url));
     (200, Body_poll CONNECTED None);
     (200, Body_result true
             "Bulk sending process started in the background.");
     (200, Body_result true "Disconnection process finished.");
     (200, Body_poll DISCONNECTED None)]
  /\ sends (snd (Part000.run tr initial))
     = ["15550100001@c.us"; "5550100002@c.us"]
  /\ fst (Part000.run tr initial) = mkState None DISCONNECTED None 1.
Proof. vm_compute. repeat split. Qed.

(** * Further properties of the two programs *)

(** ** Destination normalisation *)

(** X1: [replace(/\\D/g, '')] keeps digits only, keeps all of them in order
    (it distributes over concatenation and fixes digit strings), and so
    is idempotent and never lengthens its input. *)
Theorem strip_non_digits_normalises (a b : string) :
  all_digits (strip_non_digits a) = true
  /\ strip_non_digits (strip_non_digits a) = strip_non_digits a
  /\ strip_non_digits (a ++ b)%string
     = (strip_non_digits a ++ strip_non_digits b)%string
  /\ String.length (strip_non_digits a) <= String.length a
  /\ (if all_digits a then strip_non_digits a = a
      else String.length (strip_non_digits a) < String.length a).
Proof.
  repeat split.
  - induction a as [|x a IH]; simpl; [reflexivity|].
    destruct (is_digit x) eqn:E; simpl; rewrite ?E; exact IH.
  - induction a as [|x a IH]; simpl; [reflexivity|].
    destruct (is_digit x) eqn:E; simpl; rewrite ?E, IH; reflexivity.
  - induction a as [|x a IH]; simpl; [reflexivity|].
    destruct (is_digit x); simpl; rewrite IH; reflexivity.
  - induction a as [|x a IH]; simpl; [lia|].
    destruct (is_digit x); simpl; lia.
  - assert (Hle : forall t, String.length (strip_non_digits t)
                            <= String.length t).
    { induction t as [|y t IHt]; simpl; [lia|].
      destruct (is_digit y); simpl; lia. }
    induction a as [|x a IH]; simpl; [reflexivity|].
    destruct (is_digit x); simpl.
    + destruct (all_digits a); [rewrite IH; reflexivity | lia].
    + specialize (Hle a). lia.
Qed.

(** ** One iteration of the drain loop *)

Lemma item_sends (item : Json) (e : ItemEnv) :
  sends (effects_of (process_item item e))
  = if attempted e item then [chatId_of item] else [].
Proof.
  destruct (iteration_cases item e)
    as [(Hab & Ha & H) | [(Hab & Ha & err & H)
        | [(Hab & Ha & c & m & err & Hc & Hs & H)
          | (Hab & Ha & c & m & Hc & Hs & H)]]];
    rewrite H, Ha; reflexivity.
Qed.

Lemma item_timeouts (item : Json) (e : ItemEnv) :
  timeouts (effects_of (process_item item e))
  = if attempted e item && negb (truthy (env_send e))
    then [delay_ms (env_random e)] else [].
Proof.
  destruct (iteration_cases item e)
    as [(Hab & Ha & H) | [(Hab & Ha & err & H)
        | [(Hab & Ha & c & m & err & Hc & Hs & H)
          | (Hab & Ha & c & m & Hc & Hs & H)]]];
    rewrite H, Ha, ?Hs; reflexivity.
Qed.

Lemma item_loop_effects (item : Json) (e : ItemEnv) :
  forallb loop_effect (effects_of (process_item item e)) = true.
Proof.
  destruct (iteration_cases item e)
    as [(Hab & Ha & H) | [(Hab & Ha & err & H)
        | [(Hab & Ha & c & m & err & Hc & Hs & H)
          | (Hab & Ha & c & m & Hc & Hs & H)]]];
    rewrite H; reflexivity.
Qed.

Lemma drain_cons_item (envs : nat -> ItemEnv) (i : nat) (item : Json)
  (rest : list Json) :
  aborts item = false ->
  drain_from envs i (item :: rest)
  = (fst (drain_from envs (S i) rest),
     effects_of (process_item item (envs i))
       ++ snd (drain_from envs (S i) rest)).
Proof.
  intros Hn.
  destruct (@process_item_contained item (envs i) Hn) as (w & Hp & _).
  cbn [drain_from]. rewrite Hp.
  destruct (drain_from envs (S i) rest). reflexivity.
Qed.

Lemma drain_cons_abort (envs : nat -> ItemEnv) (i : nat) (item : Json)
  (rest : list Json) :
  aborts item = true ->
  drain_from envs i (item :: rest) = (Throw (abort_error item), []).
Proof.
  intros Hab. cbn [drain_from].
  destruct (iteration_cases item (envs i))
    as [(_ & _ & H) | [(Hn & _) | [(Hn & _) | (Hn & _)]]];
    [rewrite H; reflexivity | | |]; rewrite Hab in Hn; discriminate Hn.
Qed.

Lemma Json_is_null (item : Json) : {item = JNull} + {item <> JNull}.
Proof. destruct item; (left; reflexivity) || (right; discriminate). Qed.

Lemma forallb_loop_quiet (w : list Effect) :
  forallb loop_effect w = true ->
  responses w = [] /\ assignments w = [] /\ spawned w = []
  /\ destroyed w = [] /\ logouts w = [].
Proof.
  induction w as [|x w IH]; [repeat split|].
  cbn [forallb]. intros H. apply andb_prop in H as [Hx Hw].
  specialize (IH Hw). destruct x; try discriminate Hx; exact IH.
Qed.

Lemma drain_loop_effects (envs : nat -> ItemEnv) (messages : list Json) :
  forall i, forallb loop_effect (snd (drain_from envs i messages)) = true.
Proof.
  induction messages as [|item rest IH]; intros i; [reflexivity|].
  destruct (aborts item) eqn:Hn;
    [rewrite (@drain_cons_abort envs i item rest Hn); reflexivity|].
  rewrite (@drain_cons_item envs i item rest Hn). cbn [snd].
  rewrite forallb_app, item_loop_effects, IH. reflexivity.
Qed.

Lemma bulk_job_alt (envs : nat -> ItemEnv) (messages : list Json) :
  bulk_job envs messages
  = snd (drain_from envs 0 messages)
      ++ match fst (drain_from envs 0 messages) with
         | Normal _ => []
         | Throw e => [Uncaught e]
         end.
Proof.
  unfold bulk_job. destruct (drain_from envs 0 messages) as [[u|e] w];
    simpl; [rewrite app_nil_r|]; reflexivity.
Qed.

(** ** What the drain loop never does *)

(** X2: the background loop only logs, sends and sleeps (and may end in an
    unhandled rejection): it answers no request, writes none of the three
    variables, builds or destroys no client and logs nobody out. *)
Theorem bulk_job_is_confined (envs : nat -> ItemEnv) (messages : list Json) :
  forallb loop_effect (bulk_job envs messages) = true
  /\ responses (bulk_job envs messages) = []
  /\ assignments (bulk_job envs messages) = []
  /\ spawned (bulk_job envs messages) = []
  /\ destroyed (bulk_job envs messages) = []
  /\ logouts (bulk_job envs messages) = [].
Proof.
  assert (H : forallb loop_effect (bulk_job envs messages) = true).
  { rewrite bulk_job_alt, forallb_app, drain_loop_effects.
    destruct (fst (drain_from envs 0 messages)); reflexivity. }
  split; [exact H | exact (forallb_loop_quiet _ H)].
Qed.

(** ** Sends and timers of one iteration *)

(** X3: an iteration calls [sendMessage] at most once, exactly when the
    element has a string [phone], the [MessageMedia] constructor returns
    and a client is held; the destination is the digits of the phone
    followed by [@c.us], with no check that a digit is left.  It arms its
    timer exactly when that send is fulfilled. *)
Theorem iteration_sends_and_timers (item : Json) (e : ItemEnv) :
  sends (effects_of (process_item item e))
  = (if attempted e item then [chatId_of item] else [])
  /\ timeouts (effects_of (process_item item e))
     = (if attempted e item && negb (truthy (env_send e))
        then [delay_ms (env_random e)] else [])
  /\ chatId_of (JObj [("phone", JStr "n/a")]) = "@c.us"
  /\ sends (effects_of (process_item (JObj [("phone", JStr "n/a")]) calm))
     = ["@c.us"].
Proof.
  split; [apply item_sends|]. split; [apply item_timeouts|].
  split; reflexivity.
Qed.

(** ** The drain loop as a whole *)

Lemma bulk_job_sends (envs : nat -> ItemEnv) (messages : list Json) :
  sends (bulk_job envs messages) = sends (snd (drain_from envs 0 messages)).
Proof.
  rewrite bulk_job_alt, sends_app.
  destruct (fst (drain_from envs 0 messages)); simpl; apply app_nil_r.
Qed.

Lemma bulk_job_timeouts (envs : nat -> ItemEnv) (messages : list Json) :
  timeouts (bulk_job envs messages)
  = timeouts (snd (drain_from envs 0 messages)).
Proof.
  rewrite bulk_job_alt, timeouts_app.
  destruct (fst (drain_from envs 0 messages)); simpl; apply app_nil_r.
Qed.

Lemma drain_counts (envs : nat -> ItemEnv) (messages : list Json) :
  forall i,
    List.length (timeouts (snd (drain_from envs i messages)))
    <= List.length (sends (snd (drain_from envs i messages)))
    /\ List.length (sends (snd (drain_from envs i messages)))
       <= List.length messages.
Proof.
  induction messages as [|item rest IH]; intros i; [simpl; lia|].
  destruct (aborts item) eqn:Hn;
    [rewrite (@drain_cons_abort envs i item rest Hn); simpl; lia|].
  rewrite (@drain_cons_item envs i item rest Hn). cbn [snd].
  rewrite timeouts_app, sends_app, !length_app, item_sends, item_timeouts.
  destruct (IH (S i)) as [I1 I2].
  destruct (attempted (envs i) item), (truthy (env_send (envs i)));
    cbn [andb negb List.length]; lia.
Qed.

(** X4: a batch of n elements causes at most n sends, and never more
    pauses than sends. *)
Theorem bulk_job_sends_at_most_once_per_item
  (envs : nat -> ItemEnv) (messages : list Json) :
  List.length (timeouts (bulk_job envs messages))
  <= List.length (sends (bulk_job envs messages))
  /\ List.length (sends (bulk_job envs messages)) <= List.length messages.
Proof.
  rewrite bulk_job_sends, bulk_job_timeouts. apply drain_counts.
Qed.

Lemma drain_timers (envs : nat -> ItemEnv) (messages : list Json) :
  (forall k, (0 <= env_random (envs k))%Q /\ (env_random (envs k) < 1)%Q) ->
  forall i, Forall in_timer_range (timeouts (snd (drain_from envs i messages))).
Proof.
  intros Hr. induction messages as [|item rest IH]; intros i;
    [constructor|].
  destruct (aborts item) eqn:Hn;
    [rewrite (@drain_cons_abort envs i item rest Hn); constructor|].
  rewrite (@drain_cons_item envs i item rest Hn). cbn [snd].
  rewrite timeouts_app, item_timeouts. apply Forall_app. split; [|apply IH].
  destruct (attempted (envs i) item && negb (truthy (env_send (envs i))));
    constructor; [|constructor].
  destruct (Hr i) as [H0 H1]. exact (delay_bounds H0 H1).
Qed.

(** X5: when [Math.random()] returns doubles of [0, 1), every timer the
    loop arms lasts at least 1000 ms and at most 3000 ms, in double
    precision. *)
Theorem bulk_job_timers_in_range
  (envs : nat -> ItemEnv) (messages : list Json) :
  (forall k, (0 <= env_random (envs k))%Q /\ (env_random (envs k) < 1)%Q) ->
  Forall in_timer_range (timeouts (bulk_job envs messages)).
Proof.
  intros Hr. rewrite bulk_job_timeouts. apply drain_timers. exact Hr.
Qed.

Lemma bulk_job_timers_in_range_witness :
  Forall in_timer_range (timeouts (bulk_job (rejects_at 1) [alice; bob; carol])).
Proof.
  apply bulk_job_timers_in_range.
  intros k. unfold rejects_at. destruct (Nat.eqb k 1); simpl; split; lra.
Defined.

Lemma uncaught_app w1 w2 : uncaught (w1 ++ w2) = uncaught w1 ++ uncaught w2.
Proof.
  induction w1 as [|e w1 IH]; simpl; [reflexivity|].
  destruct e; simpl; rewrite ?IH; reflexivity.
Qed.

Lemma drain_split (envs : nat -> ItemEnv) (pre : list Json) :
  Forall (fun item => aborts item = false) pre ->
  forall i,
  exists W,
    drain_from envs i pre = (Normal tt, W ++ [finished])
    /\ uncaught W = []
    /\ forall item rest,
        aborts item = true ->
        drain_from envs i (pre ++ item :: rest)
        = (Throw (abort_error item), W).
Proof.
  induction 1 as [|x pre Hn Hpre IH]; intros i.
  - exists []. repeat split. intros item rest Hab.
    apply (@drain_cons_abort envs i item rest Hab).
  - destruct (IH (S i)) as (W & H1 & H2 & H3).
    destruct (@process_item_contained x (envs i) Hn) as (w & Hp & Hu & _).
    exists (w ++ W). split; [|split].
    + cbn [drain_from]. rewrite Hp, H1, app_assoc. reflexivity.
    + rewrite uncaught_app, Hu, H2. reflexivity.
    + intros item rest Hab. cbn [app drain_from].
      rewrite Hp, (H3 item rest Hab). reflexivity.
Qed.

(** X6: a batch is drained to its end when no element makes the [catch]
    block throw, that is when no element is [null] and no [phone] is an
    object or array that cannot be converted to a string.  Then every
    element gets its iteration, nothing is left uncaught and the last
    thing the loop does is to log that it has finished, however the
    sends settle (rejections being [Error] objects). *)
Theorem bulk_job_finishes_without_abort
  (envs : nat -> ItemEnv) (messages : list Json) :
  Forall (fun item => aborts item = false) messages ->
  uncaught (bulk_job envs messages) = []
  /\ last (bulk_job envs messages) (Uncaught null_phone_error) = finished
  /\ fst (drain_from envs 0 messages) = Normal tt.
Proof.
  intros H. destruct (drain_split envs H 0) as (W & H1 & H2 & _).
  unfold bulk_job. rewrite H1. cbn [fst]. split; [|split].
  - rewrite uncaught_app, H2. reflexivity.
  - apply last_last.
  - reflexivity.
Qed.

Lemma bulk_job_finishes_without_abort_witness :
  uncaught (bulk_job (rejects_at 1)
              [alice; JObj []; JNum (3 # 1);
               JObj [("phone", JArr [JNull; JObj [("a", JNum 1)]])]]) = [].
Proof.
  apply bulk_job_finishes_without_abort.
  repeat constructor.
Defined.

(** X7: the loop stops at the first element that makes the [catch] block
    throw (a [null], or an element whose [phone] cannot be converted to
    a string): what it did for the elements before it is what it does
    for them alone, short of the final log line, then the [TypeError] of
    the [catch] block is left unhandled; the elements after it are
    ignored. *)
Theorem bulk_job_stops_at_first_abort
  (envs : nat -> ItemEnv) (pre : list Json) (item : Json) (rest : list Json) :
  Forall (fun x => aborts x = false) pre ->
  aborts item = true ->
  bulk_job envs (pre ++ item :: rest)
  = removelast (bulk_job envs pre) ++ [Uncaught (abort_error item)]
  /\ sends (bulk_job envs (pre ++ item :: rest))
     = sends (bulk_job envs pre).
Proof.
  intros H Hab. destruct (drain_split envs H 0) as (W & H1 & _ & H3).
  assert (E : bulk_job envs (pre ++ item :: rest)
              = removelast (bulk_job envs pre)
                  ++ [Uncaught (abort_error item)]).
  { unfold bulk_job. rewrite H1, (H3 item rest Hab), removelast_last.
    reflexivity. }
  split; [exact E|].
  rewrite E. unfold bulk_job. rewrite H1, removelast_last, !sends_app.
  reflexivity.
Qed.

Lemma bulk_job_stops_at_first_abort_witness :
  sends (bulk_job calm_envs ([alice] ++ mallory :: [bob; carol]))
  = sends (bulk_job calm_envs [alice])
  /\ sends (bulk_job calm_envs ([alice] ++ JNull :: [bob; carol]))
     = sends (bulk_job calm_envs [alice]).
Proof.
  split.
  - refine (proj2 (@bulk_job_stops_at_first_abort
                     calm_envs [alice] mallory [bob; carol] _ _));
      [repeat constructor | reflexivity].
  - refine (proj2 (@bulk_job_stops_at_first_abort
                     calm_envs [alice] JNull [bob; carol] _ _));
      [repeat constructor | reflexivity].
Defined.

Lemma drain_in_order (envs : nat -> ItemEnv) (messages : list Json) :
  forall i,
    (forall k item, nth_error messages k = Some item ->
                    attempted (envs (i + k)) item = true) ->
    sends (snd (drain_from envs i messages)) = map chatId_of messages.
Proof.
  induction messages as [|item rest IH]; intros i Hok; [reflexivity|].
  pose proof (Hok 0 item eq_refl) as Ha. rewrite Nat.add_0_r in Ha.
  pose proof (attempted_not_aborting _ _ Ha) as Hn.
  rewrite (@drain_cons_item envs i item rest Hn). cbn [snd map].
  rewrite sends_app, item_sends, Ha, IH; [reflexivity|].
  intros k it Hk. replace (S i + k) with (i + S k) by lia.
  apply (Hok (S k) it Hk).
Qed.

(** X8: when every element has a string [phone] and meets a held client
    and a working [MessageMedia] constructor, the loop calls [sendMessage]
    once per element, in the order of the array, whether the individual
    sends are fulfilled or rejected. *)
Theorem bulk_job_sends_in_input_order
  (envs : nat -> ItemEnv) (messages : list Json) :
  (forall k item, nth_error messages k = Some item ->
                  attempted (envs k) item = true) ->
  sends (bulk_job envs messages) = map chatId_of messages.
Proof.
  intros H. rewrite bulk_job_sends. apply drain_in_order. exact H.
Qed.

Lemma bulk_job_sends_in_input_order_witness :
  sends (bulk_job (rejects_at 0) [carol; alice; bob])
  = map chatId_of [carol; alice; bob].
Proof.
  apply bulk_job_sends_in_input_order.
  intros [|[|[|k]]] item H; simpl in H;
    [injection H as <-; reflexivity ..
    | destruct k; discriminate H].
Defined.

(** ** Requests and their answers *)

Lemma bulk_job_quiet (envs : nat -> ItemEnv) (messages : list Json) :
  responses (bulk_job envs messages) = []
  /\ assignments (bulk_job envs messages) = []
  /\ spawned (bulk_job envs messages) = []
  /\ destroyed (bulk_job envs messages) = []
  /\ logouts (bulk_job envs messages) = [].
Proof.
  apply forallb_loop_quiet.
  rewrite bulk_job_alt, forallb_app, drain_loop_effects.
  destruct (fst (drain_from envs 0 messages)); reflexivity.
Qed.

Lemma run_handler_effects (m : M State unit) (s : State) :
  snd (run_handler m s) = effects_of (m s)
  \/ exists e, snd (run_handler m s) = effects_of (m s) ++ [Uncaught e].
Proof.
  unfold run_handler, effects_of.
  destruct (m s) as [[[u|e] s'] w]; [left | right; exists e]; reflexivity.
Qed.

Lemma projections_app w1 w2 :
  assignments (w1 ++ w2) = assignments w1 ++ assignments w2
  /\ logouts (w1 ++ w2) = logouts w1 ++ logouts w2
  /\ uncaught (w1 ++ w2) = uncaught w1 ++ uncaught w2.
Proof.
  induction w1 as [|x w1 (I1 & I2 & I3)]; [repeat split|].
  destruct x; simpl; rewrite ?I1, ?I2, ?I3; repeat split.
Qed.

Lemma run_handler_quiet (m : M State unit) (s : State) :
  responses (snd (run_handler m s)) = responses (effects_of (m s))
  /\ assignments (snd (run_handler m s)) = assignments (effects_of (m s))
  /\ destroyed (snd (run_handler m s)) = destroyed (effects_of (m s))
  /\ logouts (snd (run_handler m s)) = logouts (effects_of (m s)).
Proof.
  destruct (run_handler_effects m s) as [-> | [e ->]]; [repeat split|].
  destruct (projections_app (effects_of (m s)) [Uncaught e]) as (A & L & _).
  rewrite responses_app, destroyed_app, A, L. simpl.
  rewrite !app_nil_r. repeat split.
Qed.

Lemma post_send_bulk_cases (body : Json) (envs : nat -> ItemEnv) (s : State) :
  body <> JNull ->
  post_send_bulk body envs s
  = (Normal tt, s,
     if negb (Status_eqb (sessionStatus s) CONNECTED) then
       [Respond 400 (Body_result false "WhatsApp client is not connected.")]
     else
       match messages_of body with
       | Some (JArr items) =>
           [Console log [Txt "Received bulk send request for ";
                         Num (List.length items); Txt " messages."];
            Respond 200
              (Body_result true
                 "Bulk sending process started in the background.")]
             ++ bulk_job envs items
       | _ =>
           [Respond 400
              (Body_result false
                 ("Invalid request: " ++ dquote ++ "messages" ++ dquote
                  ++ " array not found.")%string)]
       end).
Proof.
  intros Hb. destruct s as [c st q n]. destruct st; try reflexivity.
  destruct body as [ | b | x | x | l | fields]; try reflexivity;
    [contradiction Hb; reflexivity|].
  unfold post_send_bulk, bind, member, ret, get, messages_of. simpl.
  destruct (assoc "messages" fields) as [[ | b | x | x | l | f]|];
    reflexivity.
Qed.

(** X9: with the session connected, a body whose [messages] is missing or
    is anything but an array is refused with 400 and the second error
    text; nothing is sent and no variable is written, in both programs. *)
Theorem send_bulk_rejects_non_array
  (s : State) (body : Json) (envs : nat -> ItemEnv) :
  sessionStatus s = CONNECTED ->
  body <> JNull ->
  is_array (messages_of body) = false ->
  let refusal :=
    [Respond 400
       (Body_result false
          ("Invalid request: " ++ dquote ++ "messages" ++ dquote
           ++ " array not found.")%string)] in
  Part000.step (ReqSendBulk body envs) s = (s, refusal)
  /\ ServerJs.step (ReqSendBulk body envs) s = (s, refusal).
Proof.
  intros Hst Hb Harr refusal.
  unfold Part000.step, ServerJs.step, run_handler.
  simpl Part000.handle. simpl ServerJs.handle.
  rewrite (post_send_bulk_cases envs s Hb), Hst. simpl.
  destruct (messages_of body) as [[ | b | x | x | l | f]|];
    try discriminate Harr; split; reflexivity.
Qed.

Lemma send_bulk_rejects_non_array_witness :
  let s := mkState (Some 0) CONNECTED None 1 in
  Part000.step
    (ReqSendBulk (JObj [("messages", JStr "not an array")]) calm_envs) s
  = (s, [Respond 400
           (Body_result false
              ("Invalid request: " ++ dquote ++ "messages" ++ dquote
               ++ " array not found.")%string)]).
Proof.
  intros s.
  refine (proj1 (@send_bulk_rejects_non_array s _ calm_envs _ _ _));
    [reflexivity | discriminate | reflexivity].
Defined.

(** X10: with the session connected, a body whose [messages] is an array
    is acknowledged with 200 before the first element is looked at; the
    answer does not depend on what the loop will meet, the loop runs on
    exactly the elements of the array (none for an empty array), and the
    store is left as it was, in both programs. *)
Theorem send_bulk_acknowledges_then_drains
  (s : State) (body : Json) (items : list Json) (envs : nat -> ItemEnv) :
  sessionStatus s = CONNECTED ->
  messages_of body = Some (JArr items) ->
  let ack :=
    [Console log [Txt "Received bulk send request for ";
                  Num (List.length items); Txt " messages."];
     Respond 200
       (Body_result true "Bulk sending process started in the background.")] in
  Part000.step (ReqSendBulk body envs) s = (s, ack ++ bulk_job envs items)
  /\ ServerJs.step (ReqSendBulk body envs) s = (s, ack ++ bulk_job envs items)
  /\ responses (ack ++ bulk_job envs items)
     = [(200, Body_result true
                "Bulk sending process started in the background.")]
  /\ sends (ack ++ bulk_job envs items) = sends (bulk_job envs items)
  /\ (items = [] -> sends (ack ++ bulk_job envs items) = []).
Proof.
  intros Hst Hm ack.
  assert (Hb : body <> JNull) by (intros ->; discriminate Hm).
  unfold Part000.step, ServerJs.step, run_handler.
  simpl Part000.handle. simpl ServerJs.handle.
  rewrite (post_send_bulk_cases envs s Hb), Hst, Hm. simpl negb. cbv iota.
  destruct (bulk_job_quiet envs items) as (R & _).
  repeat split.
  - change (ack ++ bulk_job envs items)
      with (Console log [Txt "Received bulk send request for ";
                         Num (List.length items); Txt " messages."]
            :: Respond 200
                 (Body_result true
                    "Bulk sending process started in the background.")
            :: bulk_job envs items).
    simpl. rewrite R. reflexivity.
  - intros ->. reflexivity.
Qed.

Lemma send_bulk_acknowledges_then_drains_witness :
  let s := mkState (Some 0) CONNECTED None 1 in
  Part000.step (ReqSendBulk (JObj [("messages", JArr [])]) calm_envs) s
  = (s, [Console log [Txt "Received bulk send request for "; Num 0;
                      Txt " messages."];
         Respond 200
           (Body_result true
              "Bulk sending process started in the background.");
         finished]).
Proof.
  intros s.
  refine (proj1 (@send_bulk_acknowledges_then_drains s _ [] calm_envs _ _));
    reflexivity.
Defined.

Lemma post_send_bulk_one_response
  (body : Json) (envs : nat -> ItemEnv) (s : State) :
  body <> JNull ->
  List.length (responses (effects_of (post_send_bulk body envs s))) = 1
  /\ assignments (effects_of (post_send_bulk body envs s)) = []
  /\ destroyed (effects_of (post_send_bulk body envs s)) = []
  /\ logouts (effects_of (post_send_bulk body envs s)) = [].
Proof.
  intros Hb. rewrite (post_send_bulk_cases envs s Hb). unfold effects_of.
  cbn [snd]. destruct (negb (Status_eqb (sessionStatus s) CONNECTED));
    [repeat split|].
  destruct (messages_of body) as [[ | b | x | x | l | f]|];
    try (repeat split).
  all: destruct (bulk_job_quiet envs l) as (R & A & _ & D & L);
    simpl; rewrite ?R, ?A, ?D, ?L; reflexivity.
Qed.

(** X11: a connect request is answered exactly once and never throws: with
    200 and [Already connected] when the status is [CONNECTED], with 202
    in every other state, whether or not it started a client; the same in
    both programs. *)
Theorem connect_answers_200_or_202 (s : State) :
  let answer :=
    if Status_eqb (sessionStatus s) CONNECTED
    then [(200, Body_status "Already connected")]
    else [(202, Body_status "Connection process initiated.")] in
  responses (snd (Part000.step ReqConnect s)) = answer
  /\ responses (snd (ServerJs.step ReqConnect s)) = answer
  /\ uncaught (snd (Part000.step ReqConnect s)) = []
  /\ uncaught (snd (ServerJs.step ReqConnect s)) = [].
Proof. destruct s as [c st q n]. destruct st, c; repeat split. Qed.

(** X12: in [src/unnamed/part_000] every request is answered exactly once,
    and the callbacks of the collaborators answer nothing.  In
    [src/server.js] the same holds but for one case: a disconnect request
    met by a connected session whose [logout()] rejects is not answered
    at all. *)
Theorem each_request_answered_once (ev : Event) (s : State) :
  well_formed ev = true ->
  List.length (responses (snd (Part000.step ev s)))
  = (if is_request ev then 1 else 0)
  /\ List.length (responses (snd (ServerJs.step ev s)))
     = (if is_request ev then
          match ev with
          | ReqDisconnect (Some _) =>
              if Status_eqb (sessionStatus s) CONNECTED && truthy (client s)
              then 0 else 1
          | _ => 1
          end
        else 0).
Proof.
  intros Hwf.
  destruct ev as [ | | body envs | r | raw | [err|url] | | reason | msg | err].
  3: { assert (Hb : body <> JNull) by (intros ->; discriminate Hwf).
       unfold Part000.step, ServerJs.step. simpl Part000.handle.
       simpl ServerJs.handle.
       destruct (run_handler_quiet (post_send_bulk body envs) s) as (-> & _).
       destruct (post_send_bulk_one_response envs s Hb) as (-> & _).
       split; reflexivity. }
  all: destruct s as [c st q n]; destruct st, c; try destruct r;
    split; reflexivity.
Qed.

Lemma each_request_answered_once_witness :
  List.length
    (responses (snd (ServerJs.step (ReqDisconnect (Some (mkError "Error" "x")))
                                   (mkState (Some 0) CONNECTED None 1)))) = 0.
Proof.
  refine (proj2 (@each_request_answered_once
                   (ReqDisconnect (Some (mkError "Error" "x")))
                   (mkState (Some 0) CONNECTED None 1) _)).
  reflexivity.
Defined.

Lemma post_send_bulk_no_client_calls
  (body : Json) (envs : nat -> ItemEnv) (s : State) :
  destroyed (effects_of (post_send_bulk body envs s)) = []
  /\ logouts (effects_of (post_send_bulk body envs s)) = [].
Proof.
  destruct (Json_is_null body) as [-> | Hb].
  - destruct s as [c st q n]. destruct st; split; reflexivity.
  - destruct (post_send_bulk_one_response envs s Hb) as (_ & _ & D & L).
    split; assumption.
Qed.

(** ** Calls to the transport client *)

(** X13: the programs call the client in fixed places only.  A [Client] is
    built by a connect request and by nothing else; [logout()] is called
    by a disconnect request and by nothing else; [destroy()] is called by
    the disconnected handler and, in [src/unnamed/part_000] only, by the
    handler of a failed [initialize()].  In particular neither a connect
    nor a disconnect request ever destroys a client. *)
Theorem client_calls_are_confined (ev : Event) (s : State) :
  match ev with
  | ReqConnect => True
  | _ => spawned (snd (Part000.step ev s)) = []
         /\ spawned (snd (ServerJs.step ev s)) = []
  end
  /\ match ev with
     | ReqDisconnect _ => True
     | _ => logouts (snd (Part000.step ev s)) = []
            /\ logouts (snd (ServerJs.step ev s)) = []
     end
  /\ match ev with
     | Disconnected _ => True
     | InitializeRejected _ => destroyed (snd (ServerJs.step ev s)) = []
     | _ => destroyed (snd (Part000.step ev s)) = []
            /\ destroyed (snd (ServerJs.step ev s)) = []
     end.
Proof.
  destruct ev as [ | | body envs | r | raw | [err|url] | | reason | msg | err].
  3: { unfold Part000.step, ServerJs.step. simpl Part000.handle.
       simpl ServerJs.handle.
       destruct (run_handler_quiet (post_send_bulk body envs) s)
         as (_ & _ & -> & ->).
       rewrite run_handler_spawned, post_send_bulk_spawns_nothing.
       destruct (post_send_bulk_no_client_calls body envs s) as [-> ->].
       repeat split. }
  all: destruct s as [c st q n]; destruct st, c; try destruct r;
    repeat split.
Qed.

Lemma connect_spawns_at_most_one (s : State) :
  List.length (spawned (snd (Part000.step ReqConnect s))) <= 1
  /\ List.length (spawned (snd (ServerJs.step ReqConnect s))) <= 1.
Proof. destruct s as [c st q n]. destruct st, c; simpl; lia. Qed.

(** X14: along any trace of requests and client events, either program
    builds at most as many clients as the trace has connect requests. *)
Theorem clients_bounded_by_connects (tr : list Event) (s : State) :
  List.length (spawned (snd (Part000.run tr s))) <= count_connects tr
  /\ List.length (spawned (snd (ServerJs.run tr s))) <= count_connects tr.
Proof.
  revert s. induction tr as [|ev rest IH]; intros s; [simpl; lia|].
  assert (H : List.length (spawned (snd (Part000.step ev s)))
                + count_connects rest <= count_connects (ev :: rest)
              /\ List.length (spawned (snd (ServerJs.step ev s)))
                   + count_connects rest <= count_connects (ev :: rest)).
  { destruct (Event_is_connect ev) as [-> | Hne].
    - destruct (connect_spawns_at_most_one s) as [C1 C2].
      cbn [count_connects]. lia.
    - rewrite (part000_only_connect_spawns s Hne),
        (server_js_only_connect_spawns s Hne).
      destruct ev; simpl; lia. }
  destruct H as [H1 H2].
  simpl Part000.run. simpl ServerJs.run.
  destruct (Part000.step ev s) as [s1 w1].
  destruct (ServerJs.step ev s) as [t1 v1].
  destruct (IH s1) as [I1 _]. destruct (IH t1) as [_ I2].
  destruct (Part000.run rest s1) as [s2 w2].
  destruct (ServerJs.run rest t1) as [t2 v2].
  cbn [snd] in *. rewrite !spawned_app, !length_app. lia.
Qed.

(** ** The session across several steps *)


(** X16: [initializeWhatsApp] of [src/unnamed/part_000] is idempotent: a
    second call right after the first changes nothing and builds nothing,
    from any store.  In [src/server.js] every call builds a client, so
    two calls build two. *)
Theorem initializeWhatsApp_twice (s : State) :
  (Part000.initializeWhatsApp ;; Part000.initializeWhatsApp) s
  = Part000.initializeWhatsApp s
  /\ List.length (spawned (effects_of (Part000.initializeWhatsApp s))) <= 1
  /\ spawned (effects_of
                ((ServerJs.initializeWhatsApp ;; ServerJs.initializeWhatsApp)
                   s))
     = [allocated s; S (allocated s)].
Proof.
  destruct s as [c st q n].
  destruct st, c; repeat split; simpl; lia.
Qed.


Lemma server_js_step_keeps_handle (ev : Event) (s : State) :
  truthy (client s) = true ->
  truthy (client (fst (ServerJs.step ev s))) = true.
Proof.
  intros H.
  destruct ev as [ | | body envs | r | raw | [err|url] | | reason | msg | err].
  3: { unfold ServerJs.step. rewrite run_handler_store.
       simpl ServerJs.handle. rewrite post_send_bulk_keeps_store. exact H. }
  all: destruct s as [c st q n]; destruct c; try discriminate H;
    destruct st; try destruct r; reflexivity.
Qed.

(** X18: [src/server.js] never clears the client handle: once a client has
    been assigned, the handle holds a client after every trace of
    requests and events, the disconnect request included. *)
Theorem server_js_handle_never_cleared (tr : list Event) (s : State) :
  truthy (client s) = true ->
  truthy (client (fst (ServerJs.run tr s))) = true.
Proof.
  revert s. induction tr as [|ev rest IH]; intros s H; [exact H|].
  simpl. pose proof (server_js_step_keeps_handle ev s H) as H1.
  destruct (ServerJs.step ev s) as [s1 w1]. specialize (IH s1 H1).
  destruct (ServerJs.run rest s1) as [s2 w2]. exact IH.
Qed.

Lemma server_js_handle_never_cleared_witness :
  truthy (client (fst (ServerJs.run
                         [ReqConnect; Ready; ReqDisconnect None;
                          Disconnected "LOGOUT"; ReqDisconnect None]
                         initial))) = true.
Proof.
  change (truthy (client (fst (ServerJs.run
                                 [Ready; ReqDisconnect None;
                                  Disconnected "LOGOUT"; ReqDisconnect None]
                                 (fst (ServerJs.step ReqConnect initial)))))
          = true).
  apply server_js_handle_never_cleared. reflexivity.
Defined.

(** X19: the three failure events (authentication failure, failed
    rendering of the QR code, failed [initialize()]) end in [ERROR] and
    leave the login token and the client handle as they were, in both
    programs; none of them answers a request. *)
Theorem failure_events_keep_token_and_handle (ev : Event) (s : State) :
  is_failure_event ev = true ->
  let expected :=
    mkState (client s) ERROR (qrCodeData s) (allocated s) in
  fst (Part000.step ev s) = expected
  /\ fst (ServerJs.step ev s) = expected
  /\ responses (snd (Part000.step ev s)) = []
  /\ responses (snd (ServerJs.step ev s)) = [].
Proof.
  intros H. destruct s as [c st q n].
  destruct ev as [ | | body envs | r | raw | [err|url] | | reason | msg | err];
    try discriminate H; destruct c; repeat split.
Qed.

Lemma failure_events_keep_token_and_handle_witness :
  fst (Part000.step (QrRendered (inl (mkError "Error" "too long")))
                    (mkState (Some 0) CONNECTING (Some "data:old") 1))
  = mkState (Some 0) ERROR (Some "data:old") 1.
Proof.
  refine (proj1 (@failure_events_keep_token_and_handle
                   (QrRendered (inl (mkError "Error" "too long")))
                   (mkState (Some 0) CONNECTING (Some "data:old") 1) _)).
  reflexivity.
Defined.

(** X20: in [src/server.js] a disconnect request that does not meet a
    connected session with a client writes [DISCONNECTED] and answers
    200; it leaves the login token and the client handle as they were and
    calls neither [logout()] nor [destroy()]. *)
Theorem server_js_disconnect_when_idle
  (s : State) (logout_settled : option JsError) :
  Status_eqb (sessionStatus s) CONNECTED && truthy (client s) = false ->
  ServerJs.step (ReqDisconnect logout_settled) s
  = (mkState (client s) DISCONNECTED (qrCodeData s) (allocated s),
     [Assign (Set_sessionStatus DISCONNECTED);
      Respond 200
        (Body_result true
           "Client was not connected or already disconnected.")]).
Proof.
  destruct s as [c st q n].
  destruct st, c; intros H; try discriminate H; reflexivity.
Qed.

Lemma server_js_disconnect_when_idle_witness :
  fst (ServerJs.step (ReqDisconnect None)
                     (mkState (Some 0) CONNECTING (Some "data:qr") 1))
  = mkState (Some 0) DISCONNECTED (Some "data:qr") 1.
Proof.
  rewrite (@server_js_disconnect_when_idle
             (mkState (Some 0) CONNECTING (Some "data:qr") 1) None eq_refl).
  reflexivity.
Defined.

(** ** When an element is sent successfully *)

(** X21: the [try] block of an iteration completes exactly when the element
    has a string [phone], the [MessageMedia] constructor returns, a
    client is held and the send is fulfilled; [message] and
    [imageBase64] may be missing or of any type. *)
Theorem try_send_succeeds_iff (item : Json) (e : ItemEnv) :
  outcome_of (try_send item e) = Normal tt
  <-> attempted e item = true /\ env_send e = None.
Proof.
  destruct e as [ec em es r]. unfold attempted, outcome_of.
  destruct item as [ | b | q | s | l | fields];
    try (split; [intros H; discriminate H | intros [H _]; discriminate H]).
  unfold try_send, bind, member, ret, has_string_phone.
  destruct (assoc "phone" fields) as [[ | b | q | s | l | f]|];
    try (split; [intros H; discriminate H | intros [H _]; discriminate H]).
  destruct em as [em|];
    [split; [intros H; discriminate H | intros [H _]; discriminate H]|].
  destruct ec as [c|];
    [|split; [intros H; discriminate H | intros [H _]; discriminate H]].
  destruct es as [es|]; simpl.
  - split; [intros H; discriminate H | intros [_ H]; discriminate H].
  - split; [intros _; split; reflexivity | reflexivity].
Qed.

Lemma drain_without_client (envs : nat -> ItemEnv) (messages : list Json) :
  (forall k, env_client (envs k) = None) ->
  forall i,
    sends (snd (drain_from envs i messages)) = []
    /\ timeouts (snd (drain_from envs i messages)) = [].
Proof.
  intros Hc. induction messages as [|item rest IH]; intros i;
    [split; reflexivity|].
  destruct (aborts item) eqn:Hn;
    [rewrite (@drain_cons_abort envs i item rest Hn); split; reflexivity|].
  rewrite (@drain_cons_item envs i item rest Hn). cbn [snd].
  rewrite sends_app, timeouts_app, item_sends, item_timeouts.
  destruct (IH (S i)) as [-> ->].
  unfold attempted. rewrite (Hc i). cbn [truthy].
  rewrite !andb_false_r. split; reflexivity.
Qed.

(** X22: while no client is held (the handle is [null] or [undefined])
    the loop sends nothing and never pauses: [client.sendMessage] throws
    inside the [try] block of every iteration.  A batch in which no
    element makes the [catch] block throw is still run to its end with
    nothing left uncaught. *)
Theorem bulk_job_without_client (envs : nat -> ItemEnv) (messages : list Json) :
  (forall k, env_client (envs k) = None) ->
  sends (bulk_job envs messages) = []
  /\ timeouts (bulk_job envs messages) = []
  /\ (Forall (fun item => aborts item = false) messages ->
      uncaught (bulk_job envs messages) = []
      /\ last (bulk_job envs messages) (Uncaught null_phone_error) = finished).
Proof.
  intros Hc. rewrite bulk_job_sends, bulk_job_timeouts.
  destruct (@drain_without_client envs messages Hc 0) as [-> ->].
  split; [reflexivity|]. split; [reflexivity|].
  intros H. destruct (drain_split envs H 0) as (W & H1 & H2 & _).
  unfold bulk_job. rewrite H1. split; [|apply last_last].
  rewrite uncaught_app, H2. reflexivity.
Qed.

Lemma bulk_job_without_client_witness :
  sends (bulk_job (fun _ => mkEnv None None None (1 # 4)) [alice; bob]) = [].
Proof.
  refine (proj1 (@bulk_job_without_client
                   (fun _ => mkEnv None None None (1 # 4)) [alice; bob] _)).
  intros k. reflexivity.
Defined.
